(** * read-you: a shallow embedding of the README generator

    The development follows [src/readme_generator.py] and [src/main.py].
    Python values are modelled by the closest Rocq data:

    - [str] is [string]; the operator [needle in haystack] on strings is
      [in_str];
    - a [pathlib.Path] is a record of its parts, as pathlib stores it;
    - a [dict] is an association list in insertion order, because the
      code iterates over its dictionaries;
    - a raised exception is the [Raise] case of [result];
    - [print], the chat-completion call and the README write are effects
      on an explicit [World]. *)

From Stdlib Require Import List String Ascii Bool Arith ZArith QArith Lia.
From Stdlib Require Import PrimFloat.
Import ListNotations.
Close Scope Q_scope.
Open Scope string_scope.

(** ** Python strings *)

Module Py.

(** The newline character of [\n]. *)
Definition nl : string := String (ascii_of_nat 10) EmptyString.

(** [needle in haystack] for two [str] values: substring search. *)
Fixpoint in_str (needle haystack : string) : bool :=
  if prefix needle haystack then true
  else match haystack with
       | EmptyString => false
       | String _ rest => in_str needle rest
       end.

(** [s.endswith(suffix)]: some tail of [s] is [suffix].  This is also
    what the glob pattern [*suffix] asks of a file name when [suffix]
    holds no wildcard. *)
Fixpoint endswith (s suffix : string) : bool :=
  (s =? suffix)
  || match s with
     | EmptyString => false
     | String _ rest => endswith rest suffix
     end.

(** [sep.join(xs)]. *)
Fixpoint join (sep : string) (xs : list string) : string :=
  match xs with
  | [] => ""
  | [x] => x
  | x :: rest => x ++ sep ++ join sep rest
  end.

(** [repr] of a list of plain strings, as the f-string prints
    [list(file_contents.keys())]: ['.py', '.go']. *)
Definition repr_str_list (xs : list string) : string :=
  "[" ++ join ", " (map (fun x => "'" ++ x ++ "'") xs) ++ "]".

(** [x in xs] for a list of strings. *)
Definition in_list (x : string) (xs : list string) : bool :=
  existsb (String.eqb x) xs.

(** *** Exceptions and results *)

Inductive exn_type : Type :=
| FileNotFoundError | ValueError | NameError | TypeError | KeyError
| AttributeError | OSError | APIError.

Record exn : Type := Exn { exn_kind : exn_type; exn_msg : string }.

Inductive result (A : Type) : Type :=
| Ok (a : A)
| Raise (e : exn).
Arguments Ok {A} a.
Arguments Raise {A} e.

(** *** Dictionaries: association lists in insertion order *)

Section Dict.
Context {V : Type}.

Definition dict : Type := list (string * V).

(** [d.get(key)] *)
Fixpoint dict_get (key : string) (d : dict) : option V :=
  match d with
  | [] => None
  | (k, v) :: rest => if k =? key then Some v else dict_get key rest
  end.

(** [d[key] = v]: overwrite in place, or append a new key at the end. *)
Fixpoint dict_set (key : string) (v : V) (d : dict) : dict :=
  match d with
  | [] => [(key, v)]
  | (k, w) :: rest =>
      if k =? key then (k, v) :: rest else (k, w) :: dict_set key v rest
  end.

Definition keys (d : dict) : list string := map fst d.
Definition values (d : dict) : list V := map snd d.
End Dict.
Arguments dict : clear implicits.

(** *** YAML documents as [yaml.safe_load] returns them

    Mapping keys are taken to be strings. *)
#[warnings="-register-all"]
Inductive yaml : Type :=
| YNull
| YBool (b : bool)
| YInt (z : Z)
| YStr (s : string)
| YSeq (items : list yaml)
| YMap (entries : list (string * yaml)).

(** [type(v).__name__] *)
Definition type_name (v : yaml) : string :=
  match v with
  | YNull => "NoneType"
  | YBool _ => "bool"
  | YInt _ => "int"
  | YStr _ => "str"
  | YSeq _ => "list"
  | YMap _ => "dict"
  end.

(** [bool(v)] *)
Definition truthy (v : yaml) : bool :=
  match v with
  | YNull => false
  | YBool b => b
  | YInt z => negb (z =? 0)%Z
  | YStr s => negb (s =? "")
  | YSeq items => match items with [] => false | _ => true end
  | YMap entries => match entries with [] => false | _ => true end
  end.

End Py.
Import Py.

(** ** pathlib *)

Module Pathlib.

(** A pure POSIX path: whether it is anchored at the root, and its
    components.  The root of exactly two slashes, which pathlib keeps
    apart from the single slash, is the anchored path whose first
    component is empty. *)
Record Path : Type := mkPath { absolute : bool; parts : list string }.

(** The components of the bare two-slash root. *)
Definition is_double_slash_root (ps : list string) : bool :=
  match ps with
  | [x] => x =? ""
  | _ => false
  end.

(** [str(p)] *)
Definition str (p : Path) : string :=
  match absolute p, parts p with
  | false, [] => "."
  | false, ps => join "/" ps
  | true, ps => if is_double_slash_root ps then "//" else "/" ++ join "/" ps
  end.

(** [p.name]: the final component, empty when there is none. *)
Definition name (p : Path) : string := last (parts p) "".

(** [p / rel] for relative components [rel]. *)
Definition joinpath (p : Path) (rel : list string) : Path :=
  mkPath (absolute p) (parts p ++ rel)%list.

(** [p == q]: same anchor, same components. *)
Definition path_eq_dec (p q : Path) : {p = q} + {p <> q}.
Proof.
  decide equality.
  - apply (list_eq_dec string_dec).
  - apply bool_dec.
Defined.

Definition path_eqb (p q : Path) : bool :=
  if path_eq_dec p q then true else false.

(** [p in ps] for a list of paths *)
Definition path_in (p : Path) (ps : list Path) : bool :=
  existsb (path_eqb p) ps.

Fixpoint strip_prefix (pre xs : list string) : option (list string) :=
  match pre, xs with
  | [], _ => Some xs
  | a :: pre', b :: xs' => if a =? b then strip_prefix pre' xs' else None
  | _ :: _, [] => None
  end.

(** [p.relative_to(base)]; raises [ValueError] when [p] is not below
    [base]. *)
Definition relative_to (p base : Path) : result Path :=
  if Bool.eqb (absolute p) (absolute base) then
    match strip_prefix (parts base) (parts p) with
    | Some rel => Ok (mkPath false rel)
    | None =>
        Raise (Exn ValueError
                 ("'" ++ str p ++ "' is not in the subpath of '" ++ str base ++ "'"))
    end
  else
    Raise (Exn ValueError
             ("'" ++ str p ++ "' is not in the subpath of '" ++ str base ++ "'")).

(** Split a string at every ["/"]. *)
Fixpoint split_slash (s : string) (cur : string) : list string :=
  match s with
  | EmptyString => [cur]
  | String c rest =>
      if Ascii.eqb c "/" then cur :: split_slash rest ""
      else split_slash rest (cur ++ String c EmptyString)
  end.

(** [Path(s)]: empty and ["."] components are dropped; exactly two
    leading slashes are kept, three or more are one. *)
Definition Path_of (s : string) : Path :=
  let components :=
    filter (fun c => negb (c =? "") && negb (c =? ".")) (split_slash s "") in
  if prefix "//" s && negb (prefix "///" s)
  then mkPath true ("" :: components)
  else mkPath (prefix "/" s) components.

End Pathlib.
Import Pathlib.

(** ** The world the program runs in *)

(** One call of [client.chat.completions.create]. *)
Record Request : Type := mkRequest {
  req_model : yaml;          (* [self.model], read from the configuration *)
  req_system : string;      (* content of the "system" message *)
  req_user : string;        (* content of the "user" message *)
  req_temperature : Q;
  req_max_tokens : nat
}.

(** What the program has done so far: lines printed, requests sent to
    the generation backend, files written. *)
Record World : Type := mkWorld {
  stdout : list string;
  requests : list Request;
  written : list (Path * string)
}.

Definition empty_world : World := mkWorld [] [] [].

(** Computations that act on the world and may raise. *)
Definition M (A : Type) : Type := World -> World * result A.

Definition ret {A} (a : A) : M A := fun w => (w, Ok a).
Definition raise {A} (e : exn) : M A := fun w => (w, Raise e).
Definition bind {A B} (m : M A) (k : A -> M B) : M B :=
  fun w => match m w with
           | (w', Ok a) => k a w'
           | (w', Raise e) => (w', Raise e)
           end.
Definition lift {A} (r : result A) : M A := fun w => (w, r).

(** [try: m except Exception as e: h e] *)
Definition try_except {A} (m : M A) (h : exn -> M A) : M A :=
  fun w => match m w with
           | (w', Ok a) => (w', Ok a)
           | (w', Raise e) => h e w'
           end.

Definition print (line : string) : M unit :=
  fun w => (mkWorld (stdout w ++ [line])%list (requests w) (written w), Ok tt).

Notation "x <- m ;; k" := (bind m (fun x => k))
  (at level 61, m at next level, right associativity).
Notation "m ;;; k" := (bind m (fun _ => k))
  (at level 61, right associativity).

(** The repository on disk, seen from the scanned directory: the
    entries below it (files and directories alike, as relative
    components) in the order the recursive walk meets them, what
    reading [open(file, 'r', encoding='utf-8')] gives for a path, and
    whether [open(path, "w")] succeeds for a path (it raises when the
    directory is missing or may not be written). *)
Record FileSystem : Type := mkFileSystem {
  listing : list (list string);
  read_text : Path -> result string;
  open_write : Path -> result unit
}.

(** A tree in which every path may be written. *)
Definition mkFS (listing : list (list string))
           (read_text : Path -> result string) : FileSystem :=
  mkFileSystem listing read_text (fun _ => Ok tt).

(** The generation backend: the text of the first choice of the
    completion ([None] when the message has no content), or the error
    the client raises. *)
Definition Backend : Type := Request -> result (option string).

Definition chat_completions_create (backend : Backend) (req : Request)
  : M (option string) :=
  fun w => (mkWorld (stdout w) (requests w ++ [req])%list (written w), backend req).

(** [with open(path, "w") as f: f.write(content)]: nothing is written
    when the file cannot be opened. *)
Definition write_file (fs : FileSystem) (path : Path) (content : string)
  : M unit :=
  fun w =>
    match open_write fs path with
    | Ok _ =>
        (mkWorld (stdout w) (requests w) (written w ++ [(path, content)])%list,
         Ok tt)
    | Raise e => (w, Raise e)
    end.

(** [directory.rglob('*' + ext)]: every entry below [directory] whose
    name matches the pattern. *)
Definition rglob (fs : FileSystem) (directory : Path) (ext : string) : list Path :=
  map (joinpath directory)
      (filter (fun rel => endswith (last rel "") ext) (listing fs)).

(** ** [ReadmeGenerator.analyze_directory] *)

(** Line 136.  A Python set; only membership tests are made on it, so
    the order is irrelevant.  The last element is the literal text of
    the source, asterisk included. *)
Definition ignore_dirs : list string :=
  [".git"; "node_modules"; ".venv"; "venv"; "__pycache__"; "build"; "dist";
   "*.egg-info"].

(** Lines 139-149: the extension catalog with its entry-point names. *)
Definition important_patterns : dict (list string) :=
  [ (".py",   ["main.py"; "app.py"; "index.py"; "setup.py"]);
    (".js",   ["index.js"; "main.js"; "app.js"; "server.js"]);
    (".ts",   ["index.ts"; "main.ts"; "app.ts"; "server.ts"]);
    (".go",   ["main.go"; "app.go"; "server.go"]);
    (".rs",   ["main.rs"; "lib.rs"]);
    (".java", ["Main.java"; "App.java"; "Application.java"]);
    (".rb",   ["main.rb"; "app.rb"; "application.rb"]);
    (".php",  ["index.php"; "app.php"]);
    (".cs",   ["Program.cs"; "Startup.cs"]) ].

(** [important_patterns[ext]]; the code only indexes with keys of the
    catalog. *)
Definition patterns_of (ext : string) : list string :=
  match dict_get ext important_patterns with
  | Some ps => ps
  | None => []
  end.

(** Line 158: [any(ignore_dir in str(file) for ignore_dir in ignore_dirs)] *)
Definition is_ignored (file : Path) : bool :=
  existsb (fun ignore_dir => in_str ignore_dir (str file)) ignore_dirs.

(** Lines 155-159 for one extension. *)
Definition valid_files (fs : FileSystem) (directory : Path) (ext : string)
  : list Path :=
  filter (fun file => negb (is_ignored file)) (rglob fs directory ext).

(** Lines 155-162: one round of the first loop. *)
Definition first_pass_step (fs : FileSystem) (directory : Path)
           (acc : dict nat * list Path) (ext : string) : dict nat * list Path :=
  let (language_counts, all_files) := acc in
  match valid_files fs directory ext with
  | [] => acc
  | valid =>
      (dict_set ext (List.length valid) language_counts,
       (all_files ++ valid)%list)
  end.

(** Lines 152-162: the first pass gives [language_counts] and
    [all_files]. *)
Definition first_pass (fs : FileSystem) (directory : Path)
  : dict nat * list Path :=
  fold_left (first_pass_step fs directory) (keys important_patterns) ([], []).

(** Line 168: [max(language_counts.values())], called on a non-empty
    dictionary only. *)
Definition max_count (language_counts : dict nat) : nat :=
  fold_left Nat.max (values language_counts) 0%nat.

(** Line 169: [count >= max_count * 0.3].  Python compares an int with
    a float by value; the product is taken here in exact rationals. *)
Definition at_least_30_percent (max_count count : nat) : bool :=
  Qle_bool (inject_Z (Z.of_nat max_count) * 0.3)%Q (inject_Z (Z.of_nat count)).

(** The same test in binary64, as the interpreter runs it: [0.3] is
    the double 0x1.3333333333333p-2, the product is rounded, and the
    counts are converted without loss. *)
Fixpoint float_of_nat (n : nat) : float :=
  match n with
  | O => 0%float
  | S k => (float_of_nat k + 1)%float
  end.

Definition at_least_30_percent_binary64 (max_count count : nat) : bool :=
  PrimFloat.leb (float_of_nat max_count * 0x1.3333333333333p-2)%float
                (float_of_nat count).

Definition primary_languages (language_counts : dict nat) : list string :=
  let max_count := max_count language_counts in
  map fst
      (filter (fun ec => at_least_30_percent max_count (snd ec)) language_counts).

(** Lines 179 and 187: the path mentions a primary source directory. *)
Definition in_source_dir (file : Path) : bool :=
  in_str "src/" (str file) || in_str "lib/" (str file) || in_str "app/" (str file).

(** Lines 176-182: entry points. *)
Definition entry_point_step (ext pattern : string)
           (files_by_importance : list Path) (file : Path) : list Path :=
  if (name file =? pattern) && in_str ext (str file) then
    if in_source_dir file then file :: files_by_importance   (* insert(0, file) *)
    else (files_by_importance ++ [file])%list                (* append(file) *)
  else files_by_importance.

Definition first_priority (ext : string) (all_files : list Path)
           (files_by_importance : list Path) : list Path :=
  fold_left
    (fun acc pattern => fold_left (entry_point_step ext pattern) all_files acc)
    (patterns_of ext) files_by_importance.

(** Lines 185-188: other files of source directories. *)
Definition second_priority_step (ext : string)
           (files_by_importance : list Path) (file : Path) : list Path :=
  if in_str ext (str file) && negb (path_in file files_by_importance) then
    if in_source_dir file then (files_by_importance ++ [file])%list
    else files_by_importance
  else files_by_importance.

Definition second_priority (ext : string) (all_files : list Path)
           (files_by_importance : list Path) : list Path :=
  fold_left (second_priority_step ext) all_files files_by_importance.

(** Lines 191-193: remaining files. *)
Definition third_priority_step (ext : string)
           (files_by_importance : list Path) (file : Path) : list Path :=
  if in_str ext (str file) && negb (path_in file files_by_importance) then
    (files_by_importance ++ [file])%list
  else files_by_importance.

Definition third_priority (ext : string) (all_files : list Path)
           (files_by_importance : list Path) : list Path :=
  fold_left (third_priority_step ext) all_files files_by_importance.

(** The list as it stands after line 193, before the cut. *)
Definition ordered_files (ext : string) (all_files : list Path) : list Path :=
  third_priority ext all_files
    (second_priority ext all_files (first_priority ext all_files [])).

(** Line 196: [files_by_importance[:5]] *)
Definition files_by_importance (ext : string) (all_files : list Path)
  : list Path :=
  firstn 5 (ordered_files ext all_files).

(** Lines 201-207 for one file: the entry to append, or [None] after
    the error has been printed. *)
Definition read_file (fs : FileSystem) (directory file : Path)
  : M (option string) :=
  try_except
    (content <- lift (read_text fs file) ;;
     relative_path <- lift (relative_to file directory) ;;
     ret (Some ("# File: " ++ str relative_path ++ nl ++ content)))
    (fun e =>
       print ("Error reading " ++ str file ++ ": " ++ exn_msg e) ;;;
       ret None).

(** Lines 200-207: the loop over the retained files; [contents] is
    [file_contents[ext]] so far. *)
Fixpoint read_files (fs : FileSystem) (directory : Path) (files : list Path)
         (contents : list string) : M (list string) :=
  match files with
  | [] => ret contents
  | file :: rest =>
      entry <- read_file fs directory file ;;
      match entry with
      | Some text => read_files fs directory rest (contents ++ [text])%list
      | None => read_files fs directory rest contents
      end
  end.

(** Lines 172-207: the loop over the primary languages.  The key is
    created at line 199 and only its own list grows until the next
    extension, so the list is stored once it is complete. *)
Fixpoint second_pass (fs : FileSystem) (directory : Path)
         (all_files : list Path) (exts : list string)
         (file_contents : dict (list string)) : M (dict (list string)) :=
  match exts with
  | [] => ret file_contents
  | ext :: rest =>
      match files_by_importance ext all_files with
      | [] => second_pass fs directory all_files rest file_contents
      | files =>
          contents <- read_files fs directory files [] ;;
          second_pass fs directory all_files rest
                      (dict_set ext contents file_contents)
      end
  end.

Definition no_source_error : exn :=
  Exn ValueError "No recognized source code files found in the repository".

Definition analyze_directory (fs : FileSystem) (directory : Path)
  : M (dict (list string)) :=
  let (language_counts, all_files) := first_pass fs directory in
  match language_counts with
  | [] => raise no_source_error
  | _ =>
      second_pass fs directory all_files (primary_languages language_counts) []
  end.

(** *** A first run: the repository of the test suite *)

Definition sample_repo : FileSystem :=
  mkFS [ ["src"]; ["src"; "main.py"]; ["src"; "utils.py"] ]
       (fun p =>
          if str p =? "/tmp/test_repo/src/main.py"
          then Ok ("def main():" ++ nl ++ "    print('Hello')")
          else if str p =? "/tmp/test_repo/src/utils.py"
          then Ok ("def helper():" ++ nl ++ "    return True")
          else Raise (Exn OSError "[Errno 21] Is a directory")).

Example analyze_sample_repo :
  analyze_directory sample_repo (Path_of "/tmp/test_repo") empty_world
  = (empty_world,
     Ok [ (".py",
           [ "# File: src/main.py" ++ nl ++ "def main():" ++ nl ++ "    print('Hello')";
             "# File: src/utils.py" ++ nl ++ "def helper():" ++ nl ++ "    return True" ]) ]).
Proof. vm_compute. reflexivity. Qed.

(** ** [ReadmeGenerator._detect_project_type] *)

(** Lines 221-231. *)
Definition type_mapping : dict string :=
  [ (".py", "Python"); (".js", "JavaScript"); (".ts", "TypeScript");
    (".go", "Go"); (".rs", "Rust"); (".java", "Java"); (".rb", "Ruby");
    (".php", "PHP"); (".cs", "C#") ].

(** [max(ext_counts, key=ext_counts.get)]: the first key, in iteration
    order, that carries the greatest count. *)
Fixpoint max_by_count (best : string * nat) (rest : dict nat) : string :=
  match rest with
  | [] => fst best
  | (ext, n) :: rest' =>
      if (snd best <? n)%nat then max_by_count (ext, n) rest'
      else max_by_count best rest'
  end.

Definition _detect_project_type (file_contents : dict (list string)) : string :=
  match map (fun ef => (fst ef, List.length (snd ef))) file_contents with
  | [] => "Unknown"
  | first :: rest =>
      match dict_get (max_by_count first rest) type_mapping with
      | Some t => t
      | None => "Unknown"
      end
  end.

(** ** [ReadmeGenerator.generate_readme] *)

(** What [__init__] leaves on the object. *)
Record Generator : Type := mkGenerator {
  config : yaml;
  api_key : yaml;      (* the key the client was built with *)
  model : yaml
}.

(** Line 254. *)
Definition footer : string :=
  nl ++ nl ++ "---" ++ nl ++
  "*This README was automatically generated using [read-you](https://github.com/yourusername/read-you)*".

(** Lines 258-280. *)
Definition detailed_prompt (project_type : string)
           (file_contents : dict (list string)) : string :=
  "You are analyzing a " ++ project_type ++ " project's source code to generate a README.md file." ++ nl ++
  "            Focus on the most important implementation files, which have been automatically identified and prioritized." ++ nl ++
  "            " ++ nl ++
  "            Key points to analyze:" ++ nl ++
  "            1. Look for main entry points and core functionality" ++ nl ++
  "            2. Identify the project's primary features and purpose" ++ nl ++
  "            3. Note any command-line arguments, API endpoints, or configuration options" ++ nl ++
  "            4. Identify required dependencies from imports/package files" ++ nl ++
  "            " ++ nl ++
  "            Files found: " ++ repr_str_list (keys file_contents) ++ nl ++
  "            " ++ nl ++
  "            Please include:" ++ nl ++
  "            1. Project Title (based on the main functionality)" ++ nl ++
  "            2. Clear description of what the code actually does" ++ nl ++
  "            3. Installation Instructions (specific to " ++ project_type ++ ")" ++ nl ++
  "            4. Usage Examples (based on actual implementation)" ++ nl ++
  "            5. Project Structure (focusing on key files)" ++ nl ++
  "            6. Dependencies (based on actual imports/requirements)" ++ nl ++
  "            7. Contributing Guidelines" ++ nl ++
  "            8. License Information (if found)" ++ nl ++
  "            " ++ nl ++
  "            Do not add any footer - it will be added automatically." ++ nl ++
  "            ".

(** Lines 282-294. *)
Definition brief_prompt (project_type : string)
           (file_contents : dict (list string)) : string :=
  "You are analyzing a " ++ project_type ++ " project's source code to generate a concise README.md." ++ nl ++
  "            Focus on the most important implementation files that have been automatically identified." ++ nl ++
  "            " ++ nl ++
  "            Files found: " ++ repr_str_list (keys file_contents) ++ nl ++
  "            " ++ nl ++
  "            Create a brief README focusing on:" ++ nl ++
  "            1. What the code actually does (based on the implementation)" ++ nl ++
  "            2. How to use it (based on actual code patterns found)" ++ nl ++
  "            3. Basic requirements (specific to " ++ project_type ++ ")" ++ nl ++
  "            " ++ nl ++
  "            Be direct and accurate. Only describe functionality that exists in the code." ++ nl ++
  "            Do not add any footer - it will be added automatically." ++ nl ++
  "            ".

(** Lines 298-302: the serialized file contents. *)
Fixpoint code_listing (items : dict (list string)) : string :=
  match items with
  | [] => ""
  | (ext, contents) :: rest =>
      match contents with
      | [] => code_listing rest
      | _ =>
          nl ++ ext ++ " files:" ++ nl
             ++ concat "" (map (fun content => content ++ nl) contents)
             ++ code_listing rest
      end
  end.

(** Lines 256-302: the user message. *)
Definition prompt_of (verbose : bool) (project_type : string)
           (file_contents : dict (list string)) : string :=
  (if verbose then detailed_prompt project_type file_contents
   else brief_prompt project_type file_contents)
  ++ nl ++ "Here's the actual code to analyze:" ++ nl
  ++ code_listing file_contents.

(** Line 308: the system message. *)
Definition system_message (project_type : string) : string :=
  "You are a technical documentation expert specializing in " ++ project_type
  ++ ". Generate a README.md based ONLY on the actual code provided, not assumptions. Focus on the main implementation files and ignore configuration or build files.".

(** Lines 305-313: the arguments of the completion call. *)
Definition completion_request (self : Generator) (verbose : bool)
           (project_type : string) (file_contents : dict (list string))
  : Request :=
  mkRequest (model self)
            (system_message project_type)
            (prompt_of verbose project_type file_contents)
            0.7%Q
            (if verbose then 2000 else 1000)%nat.

(** Line 315 when the completion carries no text: [None + footer]. *)
Definition none_plus_str : exn :=
  Exn TypeError "unsupported operand type(s) for +: 'NoneType' and 'str'".

Definition generate_readme (fs : FileSystem) (backend : Backend)
           (self : Generator) (repo_path : string) (verbose : bool) : M string :=
  let directory := Path_of repo_path in
  file_contents <- analyze_directory fs directory ;;
  let project_type := _detect_project_type file_contents in
  response <- chat_completions_create backend
                (completion_request self verbose project_type file_contents) ;;
  match response with
  | Some content => ret (content ++ footer)
  | None => raise none_plus_str
  end.

(** ** Configuration: [__init__], [_load_config], [_read_configs],
       [_init_openai], [_merge_configs] *)

(** One configuration directory.  A file that is absent is [None]; a
    file that is there holds what opening and [yaml.safe_load] give,
    a document or the error raised. *)
Record ConfigDir : Type := mkConfigDir {
  example_yaml : option (result yaml);
  secrets_yaml_template : bool;
  secrets_yaml : option (result yaml)
}.

(** The three places of lines 44-48; a directory that does not exist
    is [None]. *)
Record ConfigEnv : Type := mkConfigEnv {
  package_root : Path;                  (* Path(__file__).parent.parent *)
  home : Path;                          (* Path.home() *)
  package_config : option ConfigDir;    (* <package_root>/config *)
  user_config : option ConfigDir;       (* ~/.config/read-you *)
  system_config : option ConfigDir;     (* /etc/read-you *)
  mkdir_user_config : result unit       (* what mkdir(parents=True, exist_ok=True) does *)
}.

Definition package_config_path (env : ConfigEnv) : Path :=
  joinpath (package_root env) ["config"].
Definition user_config_path (env : ConfigEnv) : Path :=
  joinpath (home env) [".config"; "read-you"].
Definition system_config_path : Path := Path_of "/etc/read-you".

Definition possible_config_dirs (env : ConfigEnv)
  : list (Path * option ConfigDir) :=
  [ (package_config_path env, package_config env);
    (user_config_path env, user_config env);
    (system_config_path, system_config env) ].

(** [(d / 'example.yaml').exists()] *)
Definition example_exists (d : option ConfigDir) : bool :=
  match d with
  | Some cd => match example_yaml cd with Some _ => true | None => false end
  | None => false
  end.

(** Reading a name that no enclosing scope binds raises [NameError]. *)
Definition lookup_name (scope : list string) (name : string) : result unit :=
  if in_list name scope then Ok tt
  else Raise (Exn NameError ("name '" ++ name ++ "' is not defined")).

(** The names visible inside [_read_configs] at line 89: its
    parameters and locals, then the names bound at module level
    (lines 1-6).  [possible_config_dirs] is a local of [_load_config]
    and is not among them. *)
Definition read_configs_scope : list string :=
  ["self"; "config_dir"; "f"; "config";
   "Path"; "List"; "Dict"; "Optional"; "Union"; "openai"; "yaml";
   "ReadmeGenerator"].

(** Lines 124-130 on dictionaries: deep merge of [override] into
    [base]; a key keeps its place when it is already there. *)
Fixpoint merge_dict (override : yaml) (base : dict yaml) {struct override}
  : dict yaml :=
  match override with
  | YMap items =>
      (fix loop (items : list (string * yaml)) (base : dict yaml)
           {struct items} : dict yaml :=
         match items with
         | [] => base
         | (key, value) :: rest =>
             loop rest
               (match dict_get key base, value with
                | Some (YMap sub), YMap _ =>
                    dict_set key (YMap (merge_dict value sub)) base
                | _, _ => dict_set key value base
                end)
         end) items base
  | _ => base
  end.

(** What lines 127-130 raise for the first key of [override] when
    [base] is no dictionary: [key in base] fails on a scalar; on a
    string or a list it answers, and the indexing that follows fails. *)
Definition merge_type_error (base : yaml) (key : string) : exn :=
  match base with
  | YStr s =>
      if in_str key s
      then Exn TypeError "string indices must be integers, not 'str'"
      else Exn TypeError "'str' object does not support item assignment"
  | YSeq _ => Exn TypeError "list indices must be integers or slices, not str"
  | _ => Exn TypeError ("argument of type '" ++ type_name base ++ "' is not iterable")
  end.

(** [_merge_configs(base, override)] on arbitrary documents:
    [override.items()] needs a mapping, and so does [base] as soon as
    there is a key to merge. *)
Definition _merge_configs (base override : yaml) : result yaml :=
  match override with
  | YMap [] => Ok base
  | YMap ((key, _) :: _) =>
      match base with
      | YMap b => Ok (YMap (merge_dict override b))
      | _ => Raise (merge_type_error base key)
      end
  | _ =>
      Raise (Exn AttributeError
               ("'" ++ type_name override ++ "' object has no attribute 'items'"))
  end.

Definition no_such_file (p : Path) : exn :=
  Exn FileNotFoundError ("[Errno 2] No such file or directory: '" ++ str p ++ "'").

Definition is_FileNotFoundError (e : exn) : bool :=
  match exn_kind e with FileNotFoundError => true | _ => false end.

(** [open(config_dir / file)] followed by [yaml.safe_load]. *)
Definition load_yaml (config_dir : Path) (file : string)
           (content : option (result yaml)) : result yaml :=
  match content with
  | Some r => r
  | None => Raise (no_such_file (joinpath config_dir [file]))
  end.

(** Lines 84-105. *)
Definition _read_configs (env : ConfigEnv) (config_dir : Path)
           (contents : option ConfigDir) : result yaml :=
  match load_yaml config_dir "example.yaml"
          (match contents with Some cd => example_yaml cd | None => None end) with
  | Raise e =>
      if is_FileNotFoundError e then
        (* the f-string of line 89 is evaluated before the new
           exception can be raised *)
        match lookup_name read_configs_scope "possible_config_dirs" with
        | Raise unbound => Raise unbound
        | Ok _ =>
            Raise (Exn FileNotFoundError
                     ("Configuration not found in: "
                      ++ repr_str_list (map (fun d => str (fst d))
                                            (possible_config_dirs env))))
        end
      else Raise e
  | Ok config =>
      match match contents with Some cd => secrets_yaml cd | None => None end with
      | None =>
          Raise (Exn ValueError
                   ("No secrets.yaml found. Create "
                    ++ str (joinpath config_dir ["secrets.yaml"])
                    ++ " with your OpenAI API key"))
      | Some secrets_file =>
          match secrets_file with
          | Raise e =>
              Raise (Exn ValueError ("Error reading secrets.yaml: " ++ exn_msg e))
          | Ok secrets =>
              match _merge_configs config secrets with
              | Ok merged => Ok merged
              | Raise e =>
                  Raise (Exn ValueError ("Error reading secrets.yaml: " ++ exn_msg e))
              end
          end
      end
  end.

(** Lines 62-68: what the target directory holds after the copy. *)
Definition _copy_default_configs (env : ConfigEnv) (target : ConfigDir)
  : result ConfigDir :=
  match package_config env with
  | None => Ok target
  | Some pkg =>
      match example_yaml pkg with
      | None => Raise (no_such_file (joinpath (package_config_path env) ["example.yaml"]))
      | Some example =>
          if secrets_yaml_template pkg then
            Ok (mkConfigDir (Some example) true (secrets_yaml target))
          else
            Raise (no_such_file
                     (joinpath (package_config_path env) ["secrets.yaml.template"]))
      end
  end.

(** Lines 44-60. *)
Definition _load_config (env : ConfigEnv) : result yaml :=
  match find (fun d => example_exists (snd d)) (possible_config_dirs env) with
  | Some (config_dir, contents) => _read_configs env config_dir contents
  | None =>
      let config_dir := user_config_path env in
      match mkdir_user_config env with
      | Raise e => Raise e
      | Ok _ =>
          let target :=
            match user_config env with
            | Some cd => cd
            | None => mkConfigDir None false None
            end in
          match _copy_default_configs env target with
          | Raise e => Raise e
          | Ok copied => _read_configs env config_dir (Some copied)
          end
      end
  end.

Definition placeholder_keys : list string :=
  ["YOUR-API-KEY-GOES-IN-SECRETS.YAML"; "your-actual-api-key-here"].

Definition invalid_api_key : exn :=
  Exn ValueError "Invalid API key. Add your OpenAI key to secrets.yaml".

(** [self.config['openai']] *)
Definition config_openai (config : yaml) : result yaml :=
  match config with
  | YMap entries =>
      match dict_get "openai" entries with
      | Some section => Ok section
      | None => Raise (Exn KeyError "'openai'")
      end
  | YStr _ => Raise (Exn TypeError "string indices must be integers, not 'str'")
  | YSeq _ => Raise (Exn TypeError "list indices must be integers or slices, not str")
  | _ => Raise (Exn TypeError ("'" ++ type_name config ++ "' object is not subscriptable"))
  end.

(** [section.get(key, default)] *)
Definition section_get (section : yaml) (key : string) (default : yaml)
  : result yaml :=
  match section with
  | YMap entries =>
      match dict_get key entries with
      | Some v => Ok v
      | None => Ok default
      end
  | _ => Raise (Exn AttributeError
                  ("'" ++ type_name section ++ "' object has no attribute 'get'"))
  end.

(** Line 118, second disjunct. *)
Definition is_placeholder (api_key : yaml) : bool :=
  match api_key with
  | YStr s => in_list s placeholder_keys
  | _ => false
  end.

(** Lines 117-122. *)
Definition _init_openai (config : yaml) : result Generator :=
  match config_openai config with
  | Raise e => Raise e
  | Ok section =>
      match section_get section "api_key" YNull with
      | Raise e => Raise e
      | Ok api_key =>
          if negb (truthy api_key) || is_placeholder api_key then
            Raise invalid_api_key
          else
            match section_get section "model" (YStr "gpt-4-0125-preview") with
            | Raise e => Raise e
            | Ok model => Ok (mkGenerator config api_key model)
            end
      end
  end.

(** Lines 30-31: [ReadmeGenerator()]. *)
Definition ReadmeGenerator (env : ConfigEnv) : result Generator :=
  match _load_config env with
  | Raise e => Raise e
  | Ok config => _init_openai config
  end.

(** ** The command line: [main] *)

Record Args : Type := mkArgs {
  repo_path : string;
  arg_model : option string;   (* --model *)
  arg_verbose : bool;          (* --verbose, -v *)
  dry_run : bool               (* --dry-run, -d *)
}.

(** Line 235: the parameters of [generate_readme] after [self]. *)
Definition generate_readme_params : list string := ["repo_path"; "verbose"].

(** Lines 37-41: the keywords of the call in [main]. *)
Definition main_call_keywords : list string := ["model"; "verbose"].

(** Binding the keywords of a call: a keyword that names no parameter
    of the callee raises [TypeError], and the body does not run. *)
Definition bind_keywords (qualname : string) (params keywords : list string)
  : result unit :=
  match find (fun k => negb (in_list k params)) keywords with
  | Some k =>
      Raise (Exn TypeError
               (qualname ++ "() got an unexpected keyword argument '" ++ k ++ "'"))
  | None => Ok tt
  end.

(** Lines 35-55; the value is what [exit(main())] hands to the
    system. *)
Definition main (env : ConfigEnv) (fs : FileSystem) (backend : Backend)
           (args : Args) : M Z :=
  try_except
    (generator <- lift (ReadmeGenerator env) ;;
     lift (bind_keywords "ReadmeGenerator.generate_readme"
                         generate_readme_params main_call_keywords) ;;;
     content <- generate_readme fs backend generator (repo_path args)
                                (arg_verbose args) ;;
     if dry_run args then
       print content ;;; ret 0%Z
     else
       let readme_path := joinpath (Path_of (repo_path args)) ["README.md"] in
       write_file fs readme_path content ;;;
       print ("README generated at: " ++ str readme_path) ;;;
       ret 0%Z)
    (fun e => print ("Error: " ++ exn_msg e) ;;; ret 1%Z).

(** * Properties *)

(** ** Strings and paths *)

Lemma append_assoc (a b c : string) : (a ++ b) ++ c = a ++ (b ++ c).
Proof. induction a as [|x a IH]; simpl; [reflexivity | now rewrite IH]. Qed.

Lemma prefix_refl (s : string) : prefix s s = true.
Proof.
  induction s as [|c s IH]; simpl; [reflexivity|].
  destruct (ascii_dec c c); [assumption | congruence].
Qed.

Lemma in_str_prefix (needle haystack : string) :
  prefix needle haystack = true -> in_str needle haystack = true.
Proof. intros H. destruct haystack; cbn [in_str]; now rewrite H. Qed.

Lemma in_str_refl (s : string) : in_str s s = true.
Proof. apply in_str_prefix, prefix_refl. Qed.

Lemma in_str_app_r (needle a b : string) :
  in_str needle b = true -> in_str needle (a ++ b) = true.
Proof.
  intros H. induction a as [|c a IH]; [assumption|].
  change (String c a ++ b) with (String c (a ++ b)). cbn [in_str].
  rewrite IH. now destruct (prefix needle (String c (a ++ b))).
Qed.

Lemma endswith_split (s suffix : string) :
  endswith s suffix = true -> exists pre, s = pre ++ suffix.
Proof.
  induction s as [|c s IH]; cbn [endswith]; intros H.
  - rewrite orb_false_r in H. apply String.eqb_eq in H. now exists "".
  - apply orb_true_iff in H. destruct H as [H|H].
    + apply String.eqb_eq in H. now exists "".
    + destruct (IH H) as [pre ->]. now exists (String c pre).
Qed.

Lemma endswith_in_str (s suffix : string) :
  endswith s suffix = true -> in_str suffix s = true.
Proof.
  intros H. destruct (endswith_split _ _ H) as [pre ->].
  apply in_str_app_r, in_str_refl.
Qed.

Lemma join_last (sep : string) (ps : list string) :
  ps <> [] -> exists pre, join sep ps = pre ++ last ps "".
Proof.
  induction ps as [|p ps IH]; [congruence|]. intros _.
  destruct ps as [|q ps].
  - now exists "".
  - destruct IH as [pre Hpre]; [congruence|].
    exists (p ++ sep ++ pre).
    change (join sep (p :: q :: ps)) with (p ++ sep ++ join sep (q :: ps)).
    change (last (p :: q :: ps) "") with (last (q :: ps) "").
    rewrite Hpre. now rewrite !append_assoc.
Qed.

(** The name of a path is the tail of its text. *)
Lemma str_ends_with_name (p : Path) :
  parts p <> [] -> exists pre, str p = pre ++ name p.
Proof.
  intros Hne. destruct (join_last "/" (parts p) Hne) as [pre Hpre].
  unfold str, name. destruct (absolute p), (parts p) as [|q ps] eqn:E;
    try congruence.
  - destruct (is_double_slash_root (q :: ps)) eqn:Ed.
    + destruct ps as [|q' ps]; [|discriminate]. cbn in Ed.
      apply String.eqb_eq in Ed. subst q. now exists "//".
    + exists ("/" ++ pre). now rewrite Hpre.
  - exists pre. now rewrite Hpre.
Qed.

(** A file whose name ends with [ext] mentions [ext] in its path. *)
Lemma name_endswith_in_str (p : Path) (ext : string) :
  endswith (name p) ext = true -> in_str ext (str p) = true.
Proof.
  intros H. destruct (parts p) as [|q ps] eqn:E.
  - unfold name in H. rewrite E in H. cbn [last endswith] in H.
    rewrite orb_false_r in H. apply String.eqb_eq in H. subst ext.
    now destruct (str p).
  - destruct (str_ends_with_name p) as [pre ->]; [congruence|].
    apply in_str_app_r, endswith_in_str, H.
Qed.

Lemma path_eqb_eq (p q : Path) : path_eqb p q = true <-> p = q.
Proof. unfold path_eqb. destruct (path_eq_dec p q); split; congruence. Qed.

Lemma path_in_In (p : Path) (ps : list Path) : path_in p ps = true <-> In p ps.
Proof.
  unfold path_in. rewrite existsb_exists. split.
  - intros (q & Hq & E). apply path_eqb_eq in E. now subst.
  - intros H. exists p. split; [assumption | now apply path_eqb_eq].
Qed.

Lemma path_in_false (p : Path) (ps : list Path) :
  path_in p ps = false <-> ~ In p ps.
Proof.
  rewrite <- path_in_In. destruct (path_in p ps); split; congruence.
Qed.

Lemma strip_prefix_app (pre rel : list string) :
  strip_prefix pre (pre ++ rel) = Some rel.
Proof.
  induction pre as [|a pre IH]; simpl; [reflexivity|].
  now rewrite String.eqb_refl.
Qed.

(** A path made by [directory / rel] is below [directory]. *)
Lemma relative_to_joinpath (directory : Path) (rel : list string) :
  relative_to (joinpath directory rel) directory = Ok (mkPath false rel).
Proof.
  unfold relative_to, joinpath. simpl.
  now rewrite Bool.eqb_reflx, strip_prefix_app.
Qed.

(** ** Dictionaries *)

Lemma dict_set_fresh {V} (key : string) (v : V) (d : dict V) :
  ~ In key (keys d) -> dict_set key v d = (d ++ [(key, v)])%list.
Proof.
  induction d as [|[k w] d IH]; simpl; intros H; [reflexivity|].
  destruct (k =? key) eqn:E.
  - apply String.eqb_eq in E. tauto.
  - rewrite IH; tauto.
Qed.

Lemma dict_get_In {V} (key : string) (v : V) (d : dict V) :
  dict_get key d = Some v -> In (key, v) d.
Proof.
  induction d as [|[k w] d IH]; simpl; [discriminate|].
  destruct (k =? key) eqn:E.
  - apply String.eqb_eq in E. intros [= ->]. left. now subst.
  - intros H. right. auto.
Qed.

Lemma dict_get_last {V} (key : string) (v : V) (d : dict V) :
  ~ In key (keys d) -> dict_get key (d ++ [(key, v)])%list = Some v.
Proof.
  induction d as [|[k w] d IH]; simpl; intros H.
  - now rewrite String.eqb_refl.
  - destruct (k =? key) eqn:E.
    + apply String.eqb_eq in E. tauto.
    + apply IH. tauto.
Qed.

Lemma dict_get_app_l {V} (key : string) (d e : dict V) (v : V) :
  dict_get key d = Some v -> dict_get key (d ++ e)%list = Some v.
Proof.
  induction d as [|[k w] d IH]; simpl; [discriminate|].
  destruct (k =? key); auto.
Qed.

(** ** The world *)

(** The world after some more lines have been printed. *)
Definition say (lines : list string) (w : World) : World :=
  mkWorld (stdout w ++ lines)%list (requests w) (written w).

Lemma say_nil (w : World) : say [] w = w.
Proof. destruct w. unfold say. simpl. now rewrite app_nil_r. Qed.

Lemma say_app (a b : list string) (w : World) :
  say b (say a w) = say (a ++ b)%list w.
Proof. unfold say. simpl. now rewrite app_assoc. Qed.

(** ** The catalog *)

Lemma catalog_keys_NoDup : NoDup (keys important_patterns).
Proof.
  unfold keys, important_patterns. simpl.
  repeat (constructor; [simpl; intuition discriminate|]). constructor.
Qed.

(** ** The first pass *)

Section Scan.
Variables (fs : FileSystem) (directory : Path).

(** The entry of [language_counts] an extension gives rise to. *)
Definition count_of (ext : string) : dict nat :=
  match valid_files fs directory ext with
  | [] => []
  | valid => [(ext, List.length valid)]
  end.

Lemma keys_count_of (exts : list string) (e : string) :
  In e (keys (flat_map count_of exts)) -> In e exts.
Proof.
  induction exts as [|a exts IH]; simpl; [tauto|].
  unfold keys in *. rewrite map_app, in_app_iff. intros [H|H]; [|auto].
  unfold count_of in H. destruct (valid_files fs directory a); simpl in H; tauto.
Qed.

Lemma keys_count_of_NoDup (exts : list string) :
  NoDup exts -> NoDup (keys (flat_map count_of exts)).
Proof.
  induction 1 as [|a exts Ha Hnd IH]; simpl; [constructor|].
  unfold count_of at 1. destruct (valid_files fs directory a); simpl; [assumption|].
  constructor; [|assumption]. intros H. apply Ha, keys_count_of, H.
Qed.

Lemma first_pass_fold (exts : list string) :
  NoDup exts ->
  forall language_counts all_files,
    (forall e, In e exts -> ~ In e (keys language_counts)) ->
    fold_left (first_pass_step fs directory) exts (language_counts, all_files)
    = ((language_counts ++ flat_map count_of exts)%list,
       (all_files ++ flat_map (valid_files fs directory) exts)%list).
Proof.
  induction 1 as [|a exts Ha Hnd IH]; intros lc all Hfresh; simpl.
  - now rewrite !app_nil_r.
  - unfold count_of at 1.
    destruct (valid_files fs directory a) as [|f valid] eqn:E.
    + apply IH. intros e He. apply Hfresh. now right.
    + rewrite dict_set_fresh by (apply Hfresh; now left).
      rewrite IH.
      * now rewrite <- !app_assoc.
      * intros e He. unfold keys. rewrite map_app, in_app_iff. simpl.
        intros [H|[H|[]]].
        -- apply (Hfresh e); [now right | exact H].
        -- subst. contradiction.
Qed.

(** [language_counts] and [all_files] in closed form. *)
Lemma first_pass_eq :
  first_pass fs directory
  = (flat_map count_of (keys important_patterns),
     flat_map (valid_files fs directory) (keys important_patterns)).
Proof.
  unfold first_pass. rewrite first_pass_fold.
  - reflexivity.
  - apply catalog_keys_NoDup.
  - intros e _ [].
Qed.

Lemma language_counts_empty_iff :
  fst (first_pass fs directory) = []
  <-> forall ext, In ext (keys important_patterns) ->
                  valid_files fs directory ext = [].
Proof.
  rewrite first_pass_eq. cbn [fst].
  generalize (keys important_patterns). intros exts.
  induction exts as [|a exts IH]; simpl.
  - split; [intros _ ext [] | reflexivity].
  - split.
    + intros H. apply app_eq_nil in H. destruct H as [Ha Hrest].
      intros ext [<-|Hin].
      * unfold count_of in Ha.
        destruct (valid_files fs directory a); [reflexivity | discriminate].
      * now apply IH.
    + intros H. unfold count_of at 1. rewrite (H a) by now left.
      simpl. apply IH. intros ext Hin. apply H. now right.
Qed.

(** Every file of [all_files] lies below the scanned directory and
    passed the ignore filter. *)
Lemma all_files_inv (file : Path) :
  In file (snd (first_pass fs directory)) ->
  is_ignored file = false
  /\ exists rel, In rel (listing fs) /\ file = joinpath directory rel.
Proof.
  rewrite first_pass_eq. cbn [snd]. rewrite in_flat_map.
  intros (ext & _ & H). unfold valid_files in H.
  apply filter_In in H. destruct H as [H Hig].
  split; [now destruct (is_ignored file)|].
  unfold rglob in H. apply in_map_iff in H. destruct H as (rel & <- & H).
  apply filter_In in H. exists rel. tauto.
Qed.
End Scan.

(** ** Primary languages *)

Lemma at_least_30_percent_iff (m c : nat) :
  at_least_30_percent m c = true <-> 3 * m <= 10 * c.
Proof.
  unfold at_least_30_percent. rewrite Qle_bool_iff.
  unfold Qle. simpl. lia.
Qed.

(** Rounding does not change the outcome: checked for every pair of
    counts up to 200 files per extension. *)
Lemma binary64_agrees_up_to_200 :
  forallb (fun m =>
             forallb (fun c => Bool.eqb (at_least_30_percent_binary64 m c)
                                        (at_least_30_percent m c))
                     (seq 0 201))
          (seq 0 201) = true.
Proof. vm_compute. reflexivity. Qed.

Lemma fold_max_ge (l : list nat) (a : nat) :
  a <= fold_left Nat.max l a /\ Forall (fun x => x <= fold_left Nat.max l a) l.
Proof.
  revert a. induction l as [|x l IH]; intros a; simpl.
  - split; [lia | constructor].
  - destruct (IH (Nat.max a x)) as [H1 H2]. split; [lia|].
    constructor; [lia | assumption].
Qed.

Lemma fold_max_attained (l : list nat) (a : nat) :
  fold_left Nat.max l a = a \/ In (fold_left Nat.max l a) l.
Proof.
  revert a. induction l as [|x l IH]; intros a; simpl; [now left|].
  destruct (IH (Nat.max a x)) as [H|H]; [|now right; right].
  rewrite H. destruct (Nat.max_spec a x) as [[_ E]|[_ E]]; rewrite E; auto.
Qed.

(** [max_count] is the greatest count of the dictionary. *)
Lemma max_count_bound (language_counts : dict nat) (ext : string) (count : nat) :
  In (ext, count) language_counts -> count <= max_count language_counts.
Proof.
  intros H. unfold max_count.
  destruct (fold_max_ge (values language_counts) 0) as [_ Hall].
  rewrite Forall_forall in Hall. apply Hall.
  unfold values. apply in_map_iff. now exists (ext, count).
Qed.

Lemma max_count_attained (language_counts : dict nat) :
  language_counts <> [] ->
  exists ext, In (ext, max_count language_counts) language_counts.
Proof.
  intros Hne. unfold max_count.
  assert (Hin : In (fold_left Nat.max (values language_counts) 0)
                   (values language_counts)).
  { destruct (fold_max_attained (values language_counts) 0) as [H|H]; [|exact H].
    destruct language_counts as [|[e c] rest]; [congruence|].
    destruct (fold_max_ge (values ((e, c) :: rest)) 0) as [_ Hall].
    inversion Hall as [|x l Hc _]; subst. rewrite H in *. simpl in Hc.
    assert (c = 0) by lia. subst c. now left. }
  unfold values in Hin. apply in_map_iff in Hin.
  destruct Hin as ([e c] & Hc & Hin). simpl in Hc. subst c. now exists e.
Qed.

Lemma primary_languages_In (language_counts : dict nat) (ext : string) :
  In ext (primary_languages language_counts)
  <-> exists count, In (ext, count) language_counts
                    /\ 3 * max_count language_counts <= 10 * count.
Proof.
  unfold primary_languages. rewrite in_map_iff. split.
  - intros ([e c] & <- & H). apply filter_In in H. destruct H as [Hin Hc].
    exists c. split; [assumption | now apply at_least_30_percent_iff].
  - intros (c & Hin & Hc). exists (ext, c). split; [reflexivity|].
    apply filter_In. split; [assumption | now apply at_least_30_percent_iff].
Qed.

Lemma primary_languages_nonempty (language_counts : dict nat) :
  language_counts <> [] -> primary_languages language_counts <> [].
Proof.
  intros Hne. destruct (max_count_attained _ Hne) as [ext Hin].
  assert (H : In ext (primary_languages language_counts)).
  { apply primary_languages_In. exists (max_count language_counts).
    split; [assumption | lia]. }
  intros E. rewrite E in H. destruct H.
Qed.

Lemma NoDup_keys_filter {V} (p : string * V -> bool) (d : dict V) :
  NoDup (keys d) -> NoDup (keys (filter p d)).
Proof.
  unfold keys. induction d as [|[k v] d IH]; simpl; intros H; [constructor|].
  inversion H as [|x l Hk Hd]; subst.
  destruct (p (k, v)); simpl; [|auto].
  constructor; [|auto]. intros Hin. apply Hk.
  apply in_map_iff in Hin. destruct Hin as (kv & E & Hin).
  apply filter_In in Hin. apply in_map_iff. exists kv. tauto.
Qed.

Lemma primary_languages_NoDup (language_counts : dict nat) :
  NoDup (keys language_counts) -> NoDup (primary_languages language_counts).
Proof. intros H. unfold primary_languages. now apply NoDup_keys_filter. Qed.

(** ** Ranking: where the ranked files come from *)

Lemma fold_left_from {A} (step : list A -> A -> list A) :
  (forall acc f x, In x (step acc f) -> In x acc \/ x = f) ->
  forall l acc x, In x (fold_left step l acc) -> In x acc \/ In x l.
Proof.
  intros Hstep l. induction l as [|f l IH]; intros acc x H; simpl in *; [now left|].
  destruct (IH _ _ H) as [H'|H']; [|now right; right].
  destruct (Hstep _ _ _ H') as [H''| ->]; [now left | now right; left].
Qed.

Lemma entry_point_step_from ext pattern acc f x :
  In x (entry_point_step ext pattern acc f) -> In x acc \/ x = f.
Proof.
  unfold entry_point_step.
  destruct ((name f =? pattern) && in_str ext (str f)); [|now left].
  destruct (in_source_dir f); simpl; [intuition|].
  rewrite in_app_iff. simpl. intuition.
Qed.

Lemma second_priority_step_from ext acc f x :
  In x (second_priority_step ext acc f) -> In x acc \/ x = f.
Proof.
  unfold second_priority_step.
  destruct (in_str ext (str f) && negb (path_in f acc)); [|now left].
  destruct (in_source_dir f); [|now left].
  rewrite in_app_iff. simpl. intuition.
Qed.

Lemma third_priority_step_from ext acc f x :
  In x (third_priority_step ext acc f) -> In x acc \/ x = f.
Proof.
  unfold third_priority_step.
  destruct (in_str ext (str f) && negb (path_in f acc)); [|now left].
  rewrite in_app_iff. simpl. intuition.
Qed.

Lemma first_priority_from ext all acc x :
  In x (first_priority ext all acc) -> In x acc \/ In x all.
Proof.
  unfold first_priority. generalize (patterns_of ext). intros pats.
  revert acc. induction pats as [|pat pats IH]; intros acc H; simpl in *; [now left|].
  destruct (IH _ H) as [H'|H']; [|now right].
  apply (fold_left_from _ (entry_point_step_from ext pat)) in H'. exact H'.
Qed.

(** Ranking invents no file: what it orders was found by the first
    pass. *)
Lemma ordered_files_from ext all x :
  In x (ordered_files ext all) -> In x all.
Proof.
  unfold ordered_files, third_priority, second_priority. intros H.
  apply (fold_left_from _ (third_priority_step_from ext)) in H.
  destruct H as [H|H]; [|exact H].
  apply (fold_left_from _ (second_priority_step_from ext)) in H.
  destruct H as [H|H]; [|exact H].
  apply first_priority_from in H. destruct H as [[]|H]. exact H.
Qed.

Lemma In_firstn {A} (n : nat) (l : list A) (x : A) :
  In x (firstn n l) -> In x l.
Proof. intros H. rewrite <- (firstn_skipn n l). apply in_or_app. now left. Qed.

Lemma files_by_importance_from ext all x :
  In x (files_by_importance ext all) -> In x all.
Proof.
  unfold files_by_importance. intros H.
  apply ordered_files_from with ext. eapply In_firstn; eauto.
Qed.

Lemma files_by_importance_length ext all :
  List.length (files_by_importance ext all) <= 5.
Proof. unfold files_by_importance. apply firstn_le_length. Qed.

(** ** Reading the ranked files *)

Section Reading.
Variables (fs : FileSystem) (directory : Path).

(** The components of a scanned file below the scanned directory. *)
Definition relative_parts (file : Path) : list string :=
  skipn (List.length (parts directory)) (parts file).

(** What a file adds to [file_contents[ext]]. *)
Definition stored (file : Path) : list string :=
  match read_text fs file with
  | Ok content =>
      ["# File: " ++ str (mkPath false (relative_parts file)) ++ nl ++ content]
  | Raise _ => []
  end.

(** What a file makes the scan print. *)
Definition reported (file : Path) : list string :=
  match read_text fs file with
  | Ok _ => []
  | Raise e => ["Error reading " ++ str file ++ ": " ++ exn_msg e]
  end.

(** A path is below the scanned directory. *)
Definition below (file : Path) : Prop :=
  joinpath directory (relative_parts file) = file.

Lemma below_joinpath (rel : list string) : below (joinpath directory rel).
Proof.
  unfold below, relative_parts, joinpath. simpl. f_equal.
  rewrite skipn_app, skipn_all, Nat.sub_diag. reflexivity.
Qed.

Lemma read_file_eq (file : Path) (w : World) :
  below file ->
  read_file fs directory file w
  = (say (reported file) w,
     Ok (match stored file with [] => None | text :: _ => Some text end)).
Proof.
  intros Hb. unfold below in Hb.
  pose proof (relative_to_joinpath directory (relative_parts file)) as R.
  rewrite Hb in R.
  unfold read_file, try_except, bind, lift, stored, reported.
  destruct (read_text fs file) as [content|e].
  - rewrite R. unfold ret. now rewrite say_nil.
  - reflexivity.
Qed.

Lemma read_files_eq (files : list Path) :
  Forall below files ->
  forall contents w,
    read_files fs directory files contents w
    = (say (flat_map reported files) w,
       Ok (contents ++ flat_map stored files)%list).
Proof.
  induction 1 as [|file files Hb _ IH]; intros contents w;
    cbn [read_files flat_map].
  - unfold ret. now rewrite say_nil, app_nil_r.
  - unfold bind at 1. rewrite (read_file_eq _ _ Hb).
    unfold stored at 1 2, reported at 1 2.
    destruct (read_text fs file) as [content|e]; rewrite IH, say_app.
    + now rewrite <- app_assoc.
    + reflexivity.
Qed.

(** The entry of [file_contents] an extension gives rise to. *)
Definition contents_of (all_files : list Path) (ext : string)
  : dict (list string) :=
  match files_by_importance ext all_files with
  | [] => []
  | files => [(ext, flat_map stored files)]
  end.

Definition reports_of (all_files : list Path) (ext : string) : list string :=
  flat_map reported (files_by_importance ext all_files).

Lemma keys_contents_of all_files (exts : list string) (e : string) :
  In e (keys (flat_map (contents_of all_files) exts)) -> In e exts.
Proof.
  induction exts as [|a exts IH]; simpl; [tauto|].
  unfold keys in *. rewrite map_app, in_app_iff. intros [H|H]; [|auto].
  unfold contents_of in H.
  destruct (files_by_importance a all_files); simpl in H; tauto.
Qed.

Lemma second_pass_eq (all_files : list Path) :
  Forall below all_files ->
  forall exts, NoDup exts ->
  forall file_contents w,
    (forall e, In e exts -> ~ In e (keys file_contents)) ->
    second_pass fs directory all_files exts file_contents w
    = (say (flat_map (reports_of all_files) exts) w,
       Ok (file_contents ++ flat_map (contents_of all_files) exts)%list).
Proof.
  intros Hall exts. induction 1 as [|ext exts Hext Hnd IH];
    intros fc w Hfresh; cbn [second_pass flat_map].
  - unfold ret. now rewrite say_nil, app_nil_r.
  - unfold contents_of at 1, reports_of at 1.
    destruct (files_by_importance ext all_files) as [|f files] eqn:E.
    + cbn [flat_map app]. apply IH. intros e He. apply Hfresh. now right.
    + assert (Hb : Forall below (f :: files)).
      { apply Forall_forall. intros x Hx. rewrite Forall_forall in Hall.
        apply Hall, files_by_importance_from with ext. now rewrite E. }
      unfold bind. rewrite (read_files_eq _ Hb).
      rewrite dict_set_fresh by (apply Hfresh; now left).
      rewrite IH.
      * now rewrite say_app, <- !app_assoc.
      * intros e He. unfold keys. rewrite map_app, in_app_iff. simpl.
        intros [H|[H|[]]].
        -- apply (Hfresh e); [now right | exact H].
        -- subst. contradiction.
Qed.

(** [analyze_directory] in closed form: the only error is the one of
    line 165; otherwise every primary language with a ranked file has
    the entries of the files that could be read, in ranking order,
    and each failed read has printed one line. *)
Lemma analyze_directory_eq (w : World) :
  analyze_directory fs directory w
  = let (language_counts, all_files) := first_pass fs directory in
    match language_counts with
    | [] => (w, Raise no_source_error)
    | _ =>
        (say (flat_map (reports_of all_files)
                       (primary_languages language_counts)) w,
         Ok (flat_map (contents_of all_files)
                      (primary_languages language_counts)))
    end.
Proof.
  unfold analyze_directory.
  pose proof (all_files_inv fs directory) as Hinv.
  assert (Hk : NoDup (keys (fst (first_pass fs directory)))).
  { rewrite first_pass_eq. cbn [fst].
    apply keys_count_of_NoDup, catalog_keys_NoDup. }
  destruct (first_pass fs directory) as [lc all]. cbn [fst snd] in *.
  destruct lc as [|c lc]; [reflexivity|].
  rewrite second_pass_eq.
  - reflexivity.
  - apply Forall_forall. intros f Hf. destruct (Hinv f Hf) as (_ & rel & _ & ->).
    apply below_joinpath.
  - now apply primary_languages_NoDup.
  - intros e _ [].
Qed.
End Reading.

Lemma stored_length fs directory (files : list Path) :
  List.length (flat_map (stored fs directory) files) <= List.length files.
Proof.
  induction files as [|f files IH]; simpl; [lia|].
  rewrite length_app. unfold stored at 1.
  destruct (read_text fs f); simpl; lia.
Qed.


(** Repositories for the examples: [py] Python files and [go] Go files
    side by side in the scanned directory, each holding its own name. *)
Definition letter_file (ext : string) (n : nat) : list string :=
  [String (ascii_of_nat (97 + n)) ext].

Definition repo_with (py go : nat) : FileSystem :=
  mkFS (map (letter_file ".py") (seq 0 py) ++ map (letter_file ".go") (seq 0 go))%list
       (fun p => Ok (name p)).

(** ** The claims about the scan *)

(** C2: the language selector keeps exactly the extensions whose count
    is at least 0.3 times the greatest count (that is, 10 * count >=
    3 * max), the greatest count being the maximum over the mapping;
    10 .py files with 4 .go files select both, with 2 .go files only
    .py. *)
Theorem primary_languages_threshold :
  (forall language_counts : dict nat,
      language_counts <> [] ->
      (exists ext, In (ext, max_count language_counts) language_counts)
      /\ (forall ext count, In (ext, count) language_counts ->
                            count <= max_count language_counts)
      /\ (forall ext,
             In ext (primary_languages language_counts)
             <-> exists count, In (ext, count) language_counts
                               /\ 3 * max_count language_counts <= 10 * count))
  /\ fst (first_pass (repo_with 10 4) (Path_of "/repo")) = [(".py", 10); (".go", 4)]
  /\ primary_languages [(".py", 10); (".go", 4)] = [".py"; ".go"]
  /\ fst (first_pass (repo_with 10 2) (Path_of "/repo")) = [(".py", 10); (".go", 2)]
  /\ primary_languages [(".py", 10); (".go", 2)] = [".py"].
Proof.
  split; [|repeat split; vm_compute; reflexivity].
  intros lc Hne. split; [now apply max_count_attained|]. split.
  - apply max_count_bound.
  - apply primary_languages_In.
Qed.

Lemma primary_languages_threshold_witness :
  exists ext, In (ext, max_count [(".py", 10); (".go", 4)])
                 [(".py", 10); (".go", 4)].
Proof.
  apply (proj1 primary_languages_threshold [(".py", 10); (".go", 4)]).
  discriminate.
Defined.

(** C5: whatever the directory holds, no extension of the mapping
    returned by [analyze_directory] has more than 5 entries. *)
Theorem at_most_five_entries fs directory w w' file_contents ext contents :
  analyze_directory fs directory w = (w', Ok file_contents) ->
  In (ext, contents) file_contents ->
  List.length contents <= 5.
Proof.
  rewrite analyze_directory_eq.
  destruct (first_pass fs directory) as [lc all].
  destruct lc as [|c lc]; [discriminate|]. intros [= _ <-] Hin.
  apply in_flat_map in Hin. destruct Hin as (e & _ & Hin).
  unfold contents_of in Hin.
  pose proof (files_by_importance_length e all) as Hlen.
  pose proof (stored_length fs directory (files_by_importance e all)) as Hst.
  destruct (files_by_importance e all) as [|f files]; [destruct Hin|].
  destruct Hin as [[= _ <-]|[]]. cbn [flat_map] in Hst. lia.
Qed.

Lemma at_most_five_entries_witness :
  List.length (map (fun n => "# File: " ++ n ++ nl ++ n)
                   ["a.py"; "b.py"; "c.py"; "d.py"; "e.py"]) <= 5.
Proof.
  apply (at_most_five_entries (repo_with 7 0) (Path_of "/repo") empty_world)
    with (ext := ".py") (w' := empty_world)
         (file_contents :=
            [(".py", map (fun n => "# File: " ++ n ++ nl ++ n)
                         ["a.py"; "b.py"; "c.py"; "d.py"; "e.py"])]).
  - vm_compute. reflexivity.
  - left. reflexivity.
Defined.

(** A repository with one unreadable file between two readable
    ones. *)
Definition repo_with_unreadable : FileSystem :=
  mkFS [ ["src"; "main.py"]; ["src"; "locked.py"]; ["src"; "utils.py"] ]
       (fun p =>
          if name p =? "locked.py"
          then Raise (Exn OSError ("[Errno 13] Permission denied: '" ++ str p ++ "'"))
          else Ok ("# " ++ name p)).



(** ** The claims about generation *)

Lemma analyze_directory_requests fs directory w w' r :
  analyze_directory fs directory w = (w', r) ->
  requests w' = requests w /\ written w' = written w.
Proof.
  rewrite analyze_directory_eq.
  destruct (first_pass fs directory) as [lc all].
  destruct lc; intros [= <- _]; split; reflexivity.
Qed.

(** C7: once the scan has returned its mapping, [generate_readme] calls
    the backend once, with temperature 0.7 and at most 2000 tokens in
    detailed mode, 1000 in brief mode; when the backend answers with a
    text, the result is that text followed by the footer of line 254:
    two newlines, a rule of three dashes, a newline and the
    attribution in italics. *)
Theorem generate_readme_request fs backend self repo_path verbose
        w w' file_contents :
  analyze_directory fs (Path_of repo_path) w = (w', Ok file_contents) ->
  let request :=
    completion_request self verbose (_detect_project_type file_contents)
                       file_contents in
  (req_temperature request == 0.7)%Q
  /\ req_max_tokens request = (if verbose then 2000 else 1000)
  /\ requests (fst (generate_readme fs backend self repo_path verbose w))
     = (requests w ++ [request])%list
  /\ forall text,
      backend request = Ok (Some text) ->
      snd (generate_readme fs backend self repo_path verbose w)
      = Ok (text ++ "

---
*This README was automatically generated using [read-you](https://github.com/yourusername/read-you)*").
Proof.
  intros Hscan request.
  destruct (analyze_directory_requests _ _ _ _ _ Hscan) as [Hreq _].
  split; [reflexivity|]. split; [reflexivity|].
  unfold generate_readme, bind. rewrite Hscan.
  unfold chat_completions_create. fold request.
  split.
  - destruct (backend request) as [[text|]|e]; cbn; now rewrite Hreq.
  - intros text Hb. now rewrite Hb.
Qed.

Definition fixed_backend : Backend :=
  fun _ => Ok (Some ("# Test README" ++ nl ++ "This is a test README.")).

Definition some_generator : Generator :=
  mkGenerator (YMap [("openai", YMap [("api_key", YStr "sk-test")])])
              (YStr "sk-test") (YStr "gpt-4-0125-preview").

Lemma generate_readme_request_witness :
  snd (generate_readme sample_repo fixed_backend some_generator
                       "/tmp/test_repo" false empty_world)
  = Ok ("# Test README
This is a test README.

---
*This README was automatically generated using [read-you](https://github.com/yourusername/read-you)*").
Proof.
  destruct (generate_readme_request sample_repo fixed_backend some_generator
              "/tmp/test_repo" false empty_world empty_world
              [ (".py",
                 [ "# File: src/main.py" ++ nl ++ "def main():" ++ nl
                                         ++ "    print('Hello')";
                   "# File: src/utils.py" ++ nl ++ "def helper():" ++ nl
                                          ++ "    return True" ]) ])
    as (_ & _ & _ & H).
  - vm_compute. reflexivity.
  - rewrite (H _ eq_refl). reflexivity.
Defined.

(** ** The order of the ranked files *)

(** The file carries the extension [ext]. *)
Definition has_ext (ext : string) (file : Path) : bool :=
  endswith (name file) ext.

(** The file bears one of the entry-point names of [ext]. *)
Definition is_entry_point (ext : string) (file : Path) : bool :=
  in_list (name file) (patterns_of ext).

(** Entry points in match order (pattern by pattern in catalog order,
    each pattern in discovery order), inside the source directories
    when [source] is [true] and outside of them otherwise. *)
Definition entry_points (ext : string) (source : bool) (all_files : list Path)
  : list Path :=
  flat_map
    (fun pattern =>
       filter (fun f => (name f =? pattern) && Bool.eqb (in_source_dir f) source)
              all_files)
    (patterns_of ext).

(** The other files of the extension in discovery order, inside or
    outside the source directories. *)
Definition other_files (ext : string) (source : bool) (all_files : list Path)
  : list Path :=
  filter (fun f => has_ext ext f && negb (is_entry_point ext f)
                   && Bool.eqb (in_source_dir f) source)
         all_files.

(** The order the code builds. *)
Definition four_groups (ext : string) (all_files : list Path) : list Path :=
  (rev (entry_points ext true all_files)
   ++ entry_points ext false all_files
   ++ other_files ext true all_files
   ++ other_files ext false all_files)%list.

(** The order as the specification words it: entry points of the source
    directories at the front, then every remaining file of the source
    directories, then everything else in discovery order. *)
Definition three_tiers (ext : string) (all_files : list Path) : list Path :=
  (rev (entry_points ext true all_files)
   ++ other_files ext true all_files
   ++ filter (fun f => has_ext ext f && negb (in_source_dir f)) all_files)%list.

(** Every entry-point name of the catalog carries the extension it is
    listed under. *)
Lemma patterns_carry_ext (ext pattern : string) :
  In pattern (patterns_of ext) -> endswith pattern ext = true.
Proof.
  unfold patterns_of. destruct (dict_get ext important_patterns) as [ps|] eqn:E;
    [|intros []].
  apply dict_get_In in E. intros Hin.
  assert (Hall : forallb (fun ep => forallb (fun p => endswith p (fst ep)) (snd ep))
                         important_patterns = true) by (vm_compute; reflexivity).
  rewrite forallb_forall in Hall. specialize (Hall _ E). cbn [fst snd] in Hall.
  rewrite forallb_forall in Hall. now apply Hall.
Qed.

Lemma fold_left_ext {A B} (f g : A -> B -> A) :
  (forall a b, f a b = g a b) ->
  forall l a, fold_left f l a = fold_left g l a.
Proof.
  intros H l. induction l as [|b l IH]; intros a; simpl; [reflexivity|].
  now rewrite H, IH.
Qed.

Section Ranking.
Variable ext : string.

(** Lines 177-182 for one pattern. *)
Lemma entry_points_one_pattern (pattern : string) :
  endswith pattern ext = true ->
  forall files inside outside,
    fold_left (entry_point_step ext pattern) files (rev inside ++ outside)%list
    = (rev (inside
            ++ filter (fun f => (name f =? pattern)
                                && Bool.eqb (in_source_dir f) true) files)
       ++ (outside
           ++ filter (fun f => (name f =? pattern)
                               && Bool.eqb (in_source_dir f) false) files))%list.
Proof.
  intros Hpat files. induction files as [|f files IH]; intros inside outside;
    cbn [fold_left filter].
  - now rewrite !app_nil_r.
  - unfold entry_point_step at 2.
    destruct (name f =? pattern) eqn:En; cbn [andb]; [|apply IH].
    assert (Hin : in_str ext (str f) = true).
    { apply name_endswith_in_str. apply String.eqb_eq in En. now rewrite En. }
    rewrite Hin. destruct (in_source_dir f); cbn [Bool.eqb].
    + change (f :: rev inside ++ outside)%list
        with ((f :: rev inside) ++ outside)%list.
      replace (f :: rev inside) with (rev (inside ++ [f])) by apply rev_unit.
      rewrite IH. now rewrite <- !app_assoc.
    + rewrite <- app_assoc, IH. now rewrite <- !app_assoc.
Qed.

(** Lines 176-182: after the first loop the list holds the entry
    points of the source directories, last match first, then the
    entry points found elsewhere. *)
Lemma first_priority_eq (all_files : list Path) :
  first_priority ext all_files []
  = (rev (entry_points ext true all_files) ++ entry_points ext false all_files)%list.
Proof.
  unfold first_priority, entry_points.
  pose proof (patterns_carry_ext ext) as Hpats.
  change (@nil Path) with (rev (@nil Path) ++ [])%list at 1.
  change (flat_map
            (fun pattern =>
               filter (fun f => (name f =? pattern)
                                && Bool.eqb (in_source_dir f) true) all_files)
            (patterns_of ext))
    with ([] ++ flat_map
            (fun pattern =>
               filter (fun f => (name f =? pattern)
                                && Bool.eqb (in_source_dir f) true) all_files)
            (patterns_of ext))%list.
  change (flat_map
            (fun pattern =>
               filter (fun f => (name f =? pattern)
                                && Bool.eqb (in_source_dir f) false) all_files)
            (patterns_of ext))
    with ([] ++ flat_map
            (fun pattern =>
               filter (fun f => (name f =? pattern)
                                && Bool.eqb (in_source_dir f) false) all_files)
            (patterns_of ext))%list.
  generalize (@nil Path) at 1 3 as inside. generalize (@nil Path) as outside.
  induction (patterns_of ext) as [|pattern pats IH]; intros outside inside;
    cbn [fold_left flat_map].
  - now rewrite !app_nil_r.
  - rewrite entry_points_one_pattern by (apply Hpats; now left).
    rewrite IH by (intros p Hp; apply Hpats; now right).
    now rewrite <- !app_assoc.
Qed.
End Ranking.

(** The shape shared by lines 185-188 and 191-193: a file that
    satisfies [wanted] is appended unless the list holds it already. *)
Definition append_new (wanted : Path -> bool) (acc : list Path) (f : Path)
  : list Path :=
  if wanted f && negb (path_in f acc) then (acc ++ [f])%list else acc.

Lemma path_in_app (f : Path) (a b : list Path) :
  path_in f (a ++ b)%list = path_in f a || path_in f b.
Proof. apply existsb_app. Qed.

Lemma path_in_filter (f : Path) (q : Path -> bool) (l : list Path) :
  In f l -> path_in f (filter q l) = q f.
Proof.
  intros Hin. destruct (q f) eqn:E.
  - apply path_in_In, filter_In. now split.
  - apply path_in_false. rewrite filter_In. intros [_ H]. congruence.
Qed.

Lemma append_new_fold (wanted : Path -> bool) (l : list Path) :
  NoDup l ->
  forall acc,
    fold_left (append_new wanted) l acc
    = (acc ++ filter (fun f => wanted f && negb (path_in f acc)) l)%list.
Proof.
  induction 1 as [|f l Hf Hnd IH]; intros acc; cbn [fold_left filter].
  - now rewrite app_nil_r.
  - unfold append_new at 2.
    destruct (wanted f && negb (path_in f acc)) eqn:E; [|apply IH].
    rewrite IH, <- app_assoc. cbn [app]. do 2 f_equal.
    apply filter_ext_in. intros g Hg. rewrite path_in_app. cbn [path_in existsb].
    assert (Hgf : path_eqb g f = false).
    { destruct (path_eqb g f) eqn:Eg; [|reflexivity].
      apply path_eqb_eq in Eg. subst. contradiction. }
    now rewrite Hgf, !orb_false_r.
Qed.

Lemma second_priority_eq (ext : string) (all_files acc : list Path) :
  NoDup all_files ->
  second_priority ext all_files acc
  = (acc ++ filter (fun f => (in_str ext (str f) && in_source_dir f)
                             && negb (path_in f acc)) all_files)%list.
Proof.
  intros Hnd. unfold second_priority.
  rewrite <- append_new_fold by assumption.
  apply fold_left_ext. intros a f. unfold second_priority_step, append_new.
  destruct (in_str ext (str f)), (path_in f a), (in_source_dir f); reflexivity.
Qed.

Lemma third_priority_eq (ext : string) (all_files acc : list Path) :
  NoDup all_files ->
  third_priority ext all_files acc
  = (acc ++ filter (fun f => in_str ext (str f) && negb (path_in f acc))
                   all_files)%list.
Proof.
  intros Hnd. unfold third_priority.
  rewrite <- append_new_fold by assumption. reflexivity.
Qed.

(** Among the scanned files, the ones the first loop has taken are the
    ones with an entry-point name. *)
Lemma path_in_entry_points (ext : string) (all_files : list Path) (f : Path) :
  In f all_files ->
  path_in f (rev (entry_points ext true all_files)
             ++ entry_points ext false all_files)%list
  = is_entry_point ext f.
Proof.
  intros Hin. unfold is_entry_point, in_list.
  destruct (existsb (String.eqb (name f)) (patterns_of ext)) eqn:E.
  - apply existsb_exists in E. destruct E as (pattern & Hp & Hn).
    apply path_in_In. rewrite in_app_iff, <- in_rev. unfold entry_points.
    rewrite !in_flat_map.
    destruct (in_source_dir f) eqn:Es; [left | right]; exists pattern;
      (split; [assumption|]); apply filter_In; (split; [assumption|]);
      now rewrite Hn, Es.
  - apply path_in_false. rewrite in_app_iff, <- in_rev. unfold entry_points.
    rewrite !in_flat_map.
    assert (Hno : forall pattern, In pattern (patterns_of ext) ->
                                  (name f =? pattern) = false).
    { intros pattern Hp. destruct (name f =? pattern) eqn:En; [|reflexivity].
      assert (existsb (String.eqb (name f)) (patterns_of ext) = true)
        by (apply existsb_exists; eauto).
      congruence. }
    intros [(pattern & Hp & Hf)|(pattern & Hp & Hf)];
      apply filter_In in Hf; destruct Hf as [_ Hf];
      rewrite (Hno _ Hp) in Hf; discriminate.
Qed.

(** For distinct paths that mention the extension only as the
    extension of a file name, the list built by lines 173-196 is the
    first five of the four groups. *)
Lemma four_groups_order (ext : string) (all_files : list Path) :
  NoDup all_files ->
  (forall f, In f all_files ->
             in_str ext (str f) = true -> has_ext ext f = true) ->
  files_by_importance ext all_files = firstn 5 (four_groups ext all_files).
Proof.
  intros Hnd Hclean. unfold files_by_importance, ordered_files, four_groups.
  f_equal.
  assert (Hext : forall f, In f all_files ->
                           in_str ext (str f) = has_ext ext f).
  { intros f Hf. destruct (has_ext ext f) eqn:E.
    - now apply name_endswith_in_str.
    - destruct (in_str ext (str f)) eqn:Ei; [|reflexivity].
      rewrite (Hclean f Hf Ei) in E. discriminate. }
  rewrite first_priority_eq, second_priority_eq, third_priority_eq by assumption.
  set (taken := (rev (entry_points ext true all_files)
                 ++ entry_points ext false all_files)%list).
  assert (Hsecond :
            filter (fun f => (in_str ext (str f) && in_source_dir f)
                             && negb (path_in f taken)) all_files
            = other_files ext true all_files).
  { unfold other_files. apply filter_ext_in. intros f Hf. unfold taken.
    rewrite (path_in_entry_points ext all_files f Hf), (Hext f Hf).
    destruct (has_ext ext f), (is_entry_point ext f), (in_source_dir f);
      reflexivity. }
  rewrite Hsecond.
  replace (rev (entry_points ext true all_files)
           ++ entry_points ext false all_files
           ++ other_files ext true all_files
           ++ other_files ext false all_files)%list
    with ((taken ++ other_files ext true all_files)
          ++ other_files ext false all_files)%list
    by (unfold taken; now rewrite <- !app_assoc).
  f_equal. unfold other_files. apply filter_ext_in. intros f Hf.
  rewrite path_in_app, (path_in_filter f _ all_files Hf). unfold taken.
  rewrite (path_in_entry_points ext all_files f Hf), (Hext f Hf).
  destruct (has_ext ext f), (is_entry_point ext f), (in_source_dir f);
    reflexivity.
Qed.

(** *** The scanned paths are distinct *)

Lemma endswith_empty (s : string) : endswith s "" = true.
Proof.
  induction s as [|c s IH]; cbn [endswith]; [reflexivity|].
  rewrite IH. apply orb_true_r.
Qed.

(** Two tails of one string: one is a tail of the other. *)
Lemma endswith_two_suffixes (s a b : string) :
  endswith s a = true -> endswith s b = true ->
  endswith a b = true \/ endswith b a = true.
Proof.
  induction s as [|c s IH]; cbn [endswith]; intros Ha Hb.
  - rewrite orb_false_r in Ha, Hb. apply String.eqb_eq in Ha, Hb. subst.
    now left.
  - apply orb_true_iff in Ha. destruct Ha as [Ha|Ha].
    + apply String.eqb_eq in Ha. subst a. left. exact Hb.
    + apply orb_true_iff in Hb. destruct Hb as [Hb|Hb].
      * apply String.eqb_eq in Hb. subst b. right. cbn [endswith].
        rewrite Ha. apply orb_true_r.
      * auto.
Qed.

(** No extension of the catalog is the tail of another one. *)
Lemma catalog_extensions_unrelated (e1 e2 : string) :
  In e1 (keys important_patterns) -> In e2 (keys important_patterns) ->
  endswith e1 e2 = true -> e1 = e2.
Proof.
  assert (H : forallb (fun a => forallb (fun b => implb (endswith a b) (a =? b))
                                        (keys important_patterns))
                      (keys important_patterns) = true)
    by (vm_compute; reflexivity).
  intros H1 H2 He. rewrite forallb_forall in H. specialize (H _ H1).
  rewrite forallb_forall in H. specialize (H _ H2). rewrite He in H.
  now apply String.eqb_eq.
Qed.

Lemma last_app_nonempty {A} (l rel : list A) (d : A) :
  rel <> [] -> last (l ++ rel) d = last rel d.
Proof.
  intros Hne. induction l as [|x l IH]; [reflexivity|].
  cbn [app]. destruct (l ++ rel)%list eqn:E; [|exact IH].
  apply app_eq_nil in E. destruct E. congruence.
Qed.

Lemma joinpath_inj (d : Path) (r1 r2 : list string) :
  joinpath d r1 = joinpath d r2 -> r1 = r2.
Proof. unfold joinpath. intros [= H]. now apply app_inv_head in H. Qed.

Lemma NoDup_map_joinpath (d : Path) (l : list (list string)) :
  NoDup l -> NoDup (map (joinpath d) l).
Proof.
  induction 1 as [|r l Hr Hnd IH]; cbn [map]; constructor; [|assumption].
  intros Hin. apply in_map_iff in Hin. destruct Hin as (r' & E & Hr').
  apply joinpath_inj in E. subst. contradiction.
Qed.

Lemma NoDup_flat_map {A B} (f : A -> list B) (l : list A) :
  NoDup l ->
  (forall a, In a l -> NoDup (f a)) ->
  (forall a b x, In a l -> In b l -> In x (f a) -> In x (f b) -> a = b) ->
  NoDup (flat_map f l).
Proof.
  induction 1 as [|a l Ha Hnd IH]; intros Hf Hdisj; cbn [flat_map];
    [constructor|].
  apply NoDup_app.
  - apply Hf. now left.
  - apply IH.
    + intros b Hb. apply Hf. now right.
    + intros b c x Hb Hc. apply Hdisj; now right.
  - intros x Hx Hx'. apply in_flat_map in Hx'. destruct Hx' as (b & Hb & Hxb).
    assert (a = b) by (apply (Hdisj a b x); auto using in_eq, in_cons).
    subst. contradiction.
Qed.

Section Distinct.
Variables (fs : FileSystem) (directory : Path).

Lemma valid_files_from (ext : string) (f : Path) :
  In f (valid_files fs directory ext) ->
  exists rel, f = joinpath directory rel /\ endswith (last rel "") ext = true.
Proof.
  unfold valid_files, rglob. intros H. apply filter_In in H. destruct H as [H _].
  apply in_map_iff in H. destruct H as (rel & <- & H).
  apply filter_In in H. exists rel. tauto.
Qed.

Lemma valid_files_NoDup (ext : string) :
  NoDup (listing fs) -> NoDup (valid_files fs directory ext).
Proof.
  intros H. unfold valid_files, rglob.
  now apply NoDup_filter, NoDup_map_joinpath, NoDup_filter.
Qed.

(** When the walk lists every entry once, [all_files] holds every path
    once: a name ends with one extension of the catalog at most. *)
Lemma all_files_NoDup :
  NoDup (listing fs) -> NoDup (snd (first_pass fs directory)).
Proof.
  intros Hl. rewrite first_pass_eq. cbn [snd].
  apply NoDup_flat_map.
  - apply catalog_keys_NoDup.
  - intros ext _. now apply valid_files_NoDup.
  - intros e1 e2 f H1 H2 Hf1 Hf2.
    apply valid_files_from in Hf1, Hf2.
    destruct Hf1 as (r1 & -> & E1). destruct Hf2 as (r2 & Er & E2).
    apply joinpath_inj in Er. subst r2.
    destruct (endswith_two_suffixes _ _ _ E1 E2) as [H|H].
    + now apply catalog_extensions_unrelated.
    + symmetry. now apply catalog_extensions_unrelated.
Qed.
End Distinct.

(** C1, as the code has it: when the walk lists every entry once and
    the scanned paths mention the extension only as the extension of a
    file name, the ranked files of the extension are the first five of
    four groups: the entry points of the source directories, last match
    first; the entry points found outside of them, in match order; the
    remaining files of the source directories in discovery order;
    everything else in discovery order. *)
Theorem ranking_order (fs : FileSystem) (directory : Path) (ext : string) :
  NoDup (listing fs) ->
  (forall f, In f (snd (first_pass fs directory)) ->
             in_str ext (str f) = true -> has_ext ext f = true) ->
  files_by_importance ext (snd (first_pass fs directory))
  = firstn 5 (four_groups ext (snd (first_pass fs directory))).
Proof.
  intros Hl Hclean. apply four_groups_order; [|exact Hclean].
  now apply all_files_NoDup.
Qed.

(** In the four groups an entry point of the source directories comes
    before every file that is not one. *)
Lemma source_entry_points_first (ext : string) (all_files : list Path)
      (a b : Path) :
  In a (entry_points ext true all_files) ->
  In b (entry_points ext false all_files ++ other_files ext true all_files
        ++ other_files ext false all_files)%list ->
  exists l1 l2 l3,
    four_groups ext all_files = (l1 ++ a :: l2 ++ b :: l3)%list.
Proof.
  intros Ha Hb. rewrite in_rev in Ha.
  apply in_split in Ha. destruct Ha as (x1 & x2 & Ea).
  apply in_split in Hb. destruct Hb as (y1 & y2 & Eb).
  exists x1, (x2 ++ y1)%list, y2. unfold four_groups.
  rewrite Ea, Eb. rewrite <- !app_assoc. reflexivity.
Qed.

(** Decidable checks, to settle side conditions on given lists. *)
Fixpoint distinct (l : list Path) : bool :=
  match l with
  | [] => true
  | f :: rest => negb (path_in f rest) && distinct rest
  end.

Lemma distinct_NoDup (l : list Path) : distinct l = true -> NoDup l.
Proof.
  induction l as [|f l IH]; cbn [distinct]; intros H; [constructor|].
  apply andb_true_iff in H. destruct H as [Hf Hl].
  constructor; [|auto]. apply path_in_false. now destruct (path_in f l).
Qed.

Lemma distinct_NoDup_rel (l : list (list string)) :
  distinct (map (mkPath false) l) = true -> NoDup l.
Proof.
  intros H. apply distinct_NoDup in H. now apply NoDup_map_inv in H.
Qed.

Definition mentions_ext_as_suffix_only (ext : string) (l : list Path) : bool :=
  forallb (fun f => implb (in_str ext (str f)) (has_ext ext f)) l.

Lemma mentions_ext_as_suffix_only_spec (ext : string) (l : list Path) :
  mentions_ext_as_suffix_only ext l = true ->
  forall f, In f l -> in_str ext (str f) = true -> has_ext ext f = true.
Proof.
  unfold mentions_ext_as_suffix_only. rewrite forallb_forall.
  intros H f Hf Hin. specialize (H f Hf). now rewrite Hin in H.
Qed.

(** A repository showing the four groups. *)
Definition layered_repo : FileSystem :=
  mkFS [ ["setup.py"]; ["docs"; "conf.py"]; ["src"; "utils.py"];
         ["src"; "main.py"]; ["src"; "app.py"]; ["main.py"] ]
       (fun p => Ok (name p)).

Lemma ranking_order_witness :
  map str (files_by_importance ".py"
             (snd (first_pass layered_repo (Path_of "/r"))))
  = ["/r/src/app.py"; "/r/src/main.py"; "/r/main.py"; "/r/setup.py";
     "/r/src/utils.py"].
Proof.
  rewrite (ranking_order layered_repo (Path_of "/r") ".py").
  - vm_compute. reflexivity.
  - apply distinct_NoDup_rel. vm_compute. reflexivity.
  - apply mentions_ext_as_suffix_only_spec. vm_compute. reflexivity.
Defined.

(** An entry point at the top of the repository next to an ordinary
    file of [src/]. *)
Definition top_level_entry_repo : FileSystem :=
  mkFS [ ["main.py"]; ["src"; "utils.py"] ] (fun p => Ok (name p)).

(** C1 as worded fails: the entry point outside the source directories
    is ranked before the file of [src/], where the three tiers of the
    specification would put it last. *)
Lemma entry_point_outside_source_dirs_ranks_second :
  map str (files_by_importance ".py"
             (snd (first_pass top_level_entry_repo (Path_of "/r"))))
  = ["/r/main.py"; "/r/src/utils.py"]
  /\ map str (firstn 5 (three_tiers ".py"
                          (snd (first_pass top_level_entry_repo (Path_of "/r")))))
     = ["/r/src/utils.py"; "/r/main.py"]
  /\ files_by_importance ".py"
       (snd (first_pass top_level_entry_repo (Path_of "/r")))
     <> firstn 5 (three_tiers ".py"
                    (snd (first_pass top_level_entry_repo (Path_of "/r"))))
  /\ snd (analyze_directory top_level_entry_repo (Path_of "/r") empty_world)
     = Ok [ (".py", [ "# File: main.py" ++ nl ++ "main.py";
                      "# File: src/utils.py" ++ nl ++ "utils.py" ]) ].
Proof.
  repeat split; try (vm_compute; reflexivity).
  vm_compute. discriminate.
Qed.

(** ** The ignore filter *)

(** A path that mentions one of the strings of [ignore_dirs] is in
    neither [all_files] nor, therefore, any ranked list. *)
Lemma ignored_files_are_excluded fs directory (fragment : string) (file : Path) :
  In fragment ignore_dirs ->
  in_str fragment (str file) = true ->
  ~ In file (snd (first_pass fs directory))
  /\ forall ext, ~ In file (files_by_importance ext (snd (first_pass fs directory))).
Proof.
  intros Hfrag Hin.
  assert (Hig : is_ignored file = true).
  { unfold is_ignored. apply existsb_exists. now exists fragment. }
  assert (Hno : ~ In file (snd (first_pass fs directory))).
  { intros H. apply all_files_inv in H. destruct H as [H _]. congruence. }
  split; [exact Hno|].
  intros ext H. apply Hno. now apply files_by_importance_from in H.
Qed.

(** A package directory as [setup.py develop] leaves it, holding a
    Python file. *)
Definition egg_info_repo : FileSystem :=
  mkFS [ ["mypkg.egg-info"]; ["mypkg.egg-info"; "helper.py"] ]
       (fun p => if name p =? "helper.py" then Ok "VERSION = 1"
                 else Raise (Exn OSError "[Errno 21] Is a directory")).

(** C4 fails on the code: the file lies under a directory whose name
    ends in [.egg-info], and the scan returns it.  The set of line 136
    holds the text [*.egg-info], asterisk included, and line 158 looks
    for it as a substring. *)
Theorem egg_info_directory_is_scanned :
  in_str ".egg-info/" (str (joinpath (Path_of "/r") ["mypkg.egg-info"; "helper.py"]))
  = true
  /\ is_ignored (joinpath (Path_of "/r") ["mypkg.egg-info"; "helper.py"]) = false
  /\ first_pass egg_info_repo (Path_of "/r")
     = ([(".py", 1)], [joinpath (Path_of "/r") ["mypkg.egg-info"; "helper.py"]])
  /\ analyze_directory egg_info_repo (Path_of "/r") empty_world
     = (empty_world,
        Ok [ (".py", ["# File: mypkg.egg-info/helper.py" ++ nl ++ "VERSION = 1"]) ]).
Proof. repeat split; vm_compute; reflexivity. Qed.

(** ** Grouping by extension *)

(** A checkout of a repository whose directory name ends in [.js]. *)
Definition three_js_repo : FileSystem :=
  mkFS [ ["server.js"]; ["tools"]; ["tools"; "gen.py"] ]
       (fun p => if name p =? "server.js" then Ok "// server"
                 else if name p =? "gen.py" then Ok "# gen"
                 else Raise (Exn OSError "[Errno 21] Is a directory")).

(** C10 fails on the code: [gen.py] does not end with [.js], yet it is
    stored under [.js], because lines 186 and 192 ask whether the
    extension occurs anywhere in the path. *)
Theorem foreign_file_grouped_under_extension :
  endswith "gen.py" ".js" = false
  /\ in_str ".js" (str (joinpath (Path_of "three.js") ["tools"; "gen.py"])) = true
  /\ analyze_directory three_js_repo (Path_of "three.js") empty_world
     = (empty_world,
        Ok [ (".py", ["# File: tools/gen.py" ++ nl ++ "# gen"]);
             (".js", ["# File: server.js" ++ nl ++ "// server";
                      "# File: tools/gen.py" ++ nl ++ "# gen"]) ]).
Proof. repeat split; vm_compute; reflexivity. Qed.

(** ** Configuration errors *)

(** An invalid key is refused: no key, an empty one, or one of the two
    placeholders. *)
Lemma invalid_key_is_refused (config section key : yaml) :
  config_openai config = Ok section ->
  section_get section "api_key" YNull = Ok key ->
  truthy key = false \/ is_placeholder key = true ->
  _init_openai config = Raise invalid_api_key.
Proof.
  intros Hc Hk Hbad. unfold _init_openai. rewrite Hc, Hk.
  destruct Hbad as [H|H]; rewrite H; [|destruct (truthy key)]; reflexivity.
Qed.

(** A configuration directory with [example.yaml] and no
    [secrets.yaml] is refused with the path to create. *)
Lemma missing_secrets_is_refused env config_dir example template :
  _read_configs env config_dir (Some (mkConfigDir (Some (Ok example)) template None))
  = Raise (Exn ValueError
             ("No secrets.yaml found. Create "
              ++ str (joinpath config_dir ["secrets.yaml"])
              ++ " with your OpenAI API key")).
Proof. reflexivity. Qed.

(** The handler of lines 87-90 never delivers its message: whenever
    [example.yaml] cannot be found, the name it reads is unbound. *)
Lemma missing_example_raises_NameError env config_dir contents :
  match contents with Some cd => example_yaml cd | None => None end = None ->
  _read_configs env config_dir contents
  = Raise (Exn NameError "name 'possible_config_dirs' is not defined").
Proof. intros H. unfold _read_configs. rewrite H. reflexivity. Qed.

(** A machine on which the tool was installed without its [config]
    directory and never configured. *)
Definition unconfigured : ConfigEnv :=
  mkConfigEnv (Path_of "/opt/read-you") (Path_of "/home/user")
              None None None (Ok tt).

Definition run_here : Args := mkArgs "/tmp/test_repo" None false false.

(** C9 fails on the code for missing configuration files: with no
    [example.yaml] in any of the three places, construction stops with
    a [NameError] about a variable of the program, not with the
    [FileNotFoundError] that line 88 sets out to raise; [main] reports
    it and no scan takes place. *)
Theorem missing_configuration_raises_NameError :
  ReadmeGenerator unconfigured
  = Raise (Exn NameError "name 'possible_config_dirs' is not defined")
  /\ main unconfigured sample_repo fixed_backend run_here empty_world
     = (say ["Error: name 'possible_config_dirs' is not defined"] empty_world,
        Ok 1%Z).
Proof. split; vm_compute; reflexivity. Qed.

(** ** The command line *)

(** When construction fails, [main] prints the error and returns 1
    whatever the repository holds: the scan has not started. *)
Lemma construction_error_precedes_scan env fs backend args w e :
  ReadmeGenerator env = Raise e ->
  main env fs backend args w = (say ["Error: " ++ exn_msg e] w, Ok 1%Z).
Proof.
  intros H. unfold main, try_except, bind, lift. rewrite H. reflexivity.
Qed.

(** The keyword [model] of the call at lines 37-41 names no parameter
    of [generate_readme]. *)
Lemma main_call_is_rejected :
  bind_keywords "ReadmeGenerator.generate_readme"
                generate_readme_params main_call_keywords
  = Raise (Exn TypeError
             "ReadmeGenerator.generate_readme() got an unexpected keyword argument 'model'").
Proof. reflexivity. Qed.

(** Every run of [main] ends with exit code 1 and one line starting
    with [Error:]. *)
Lemma main_always_returns_1 env fs backend args w :
  exists message,
    main env fs backend args w = (say ["Error: " ++ message] w, Ok 1%Z).
Proof.
  destruct (ReadmeGenerator env) as [generator|e] eqn:E.
  - eexists. unfold main, try_except, bind, lift. rewrite E.
    rewrite main_call_is_rejected. reflexivity.
  - exists (exn_msg e). apply construction_error_precedes_scan, E.
Qed.

(** A configured machine. *)
Definition configured : ConfigEnv :=
  mkConfigEnv (Path_of "/opt/read-you") (Path_of "/home/user")
    (Some (mkConfigDir
             (Some (Ok (YMap [("openai", YMap [("model", YStr "gpt-4-0125-preview")])])))
             true
             (Some (Ok (YMap [("openai", YMap [("api_key", YStr "sk-test")])])))))
    None None (Ok tt).

(** C3 fails on the code: the configuration is valid, the scan and the
    backend succeed when [generate_readme] is called as its signature
    allows, and still [main] exits with 1, with or without [--model],
    because its call passes the keyword [model]. *)
Theorem main_exits_1_on_a_good_run :
  ReadmeGenerator configured
  = Ok (mkGenerator
          (YMap [("openai", YMap [("model", YStr "gpt-4-0125-preview");
                                  ("api_key", YStr "sk-test")])])
          (YStr "sk-test") (YStr "gpt-4-0125-preview"))
  /\ snd (generate_readme sample_repo fixed_backend
            (mkGenerator
               (YMap [("openai", YMap [("model", YStr "gpt-4-0125-preview");
                                       ("api_key", YStr "sk-test")])])
               (YStr "sk-test") (YStr "gpt-4-0125-preview"))
            "/tmp/test_repo" false empty_world)
     = Ok ("# Test README" ++ nl ++ "This is a test README." ++ footer)
  /\ main configured sample_repo fixed_backend
          (mkArgs "/tmp/test_repo" None false false) empty_world
     = (say ["Error: ReadmeGenerator.generate_readme() got an unexpected keyword argument 'model'"]
            empty_world,
        Ok 1%Z)
  /\ main configured sample_repo fixed_backend
          (mkArgs "/tmp/test_repo" (Some "gpt-4o") false false) empty_world
     = (say ["Error: ReadmeGenerator.generate_readme() got an unexpected keyword argument 'model'"]
            empty_world,
        Ok 1%Z).
Proof. repeat split; vm_compute; reflexivity. Qed.

(** * Further properties of the code *)

(** ** Ranking: what the candidate list holds *)

Lemma fold_left_keeps {A} (step : list A -> A -> list A) :
  (forall acc f x, In x acc -> In x (step acc f)) ->
  forall l acc x, In x acc -> In x (fold_left step l acc).
Proof.
  intros Hstep l. induction l as [|f l IH]; intros acc x H; cbn [fold_left];
    [assumption|].
  apply IH, Hstep, H.
Qed.

Lemma fold_left_Forall {A} (step : list A -> A -> list A) (P : A -> Prop) :
  (forall acc f, Forall P acc -> Forall P (step acc f)) ->
  forall l acc, Forall P acc -> Forall P (fold_left step l acc).
Proof.
  intros Hstep l. induction l as [|f l IH]; intros acc H; cbn [fold_left];
    [assumption|].
  apply IH, Hstep, H.
Qed.

Lemma third_priority_step_keeps ext acc f x :
  In x acc -> In x (third_priority_step ext acc f).
Proof.
  intros H. unfold third_priority_step.
  destruct (in_str ext (str f) && negb (path_in f acc)); [|assumption].
  apply in_or_app. now left.
Qed.

(** Lines 191-193 take every file that mentions the extension and was
    not taken before. *)
Lemma third_priority_complete ext all acc f :
  In f all -> in_str ext (str f) = true -> In f (third_priority ext all acc).
Proof.
  unfold third_priority. revert acc.
  induction all as [|g all IH]; intros acc Hin Hext; [destruct Hin|].
  cbn [fold_left]. destruct Hin as [->|Hin]; [|now apply IH].
  apply (fold_left_keeps _ (third_priority_step_keeps ext)).
  unfold third_priority_step. rewrite Hext. cbn [andb].
  destruct (path_in f acc) eqn:E; cbn [negb].
  - now apply path_in_In.
  - apply in_or_app. right. now left.
Qed.

(** Every file the three loops take mentions the extension. *)
Lemma ordered_files_mention_ext ext all :
  Forall (fun f => in_str ext (str f) = true) (ordered_files ext all).
Proof.
  unfold ordered_files, third_priority, second_priority, first_priority.
  apply fold_left_Forall.
  { intros acc f H. unfold third_priority_step.
    destruct (in_str ext (str f)) eqn:E; cbn [andb]; [|assumption].
    destruct (negb (path_in f acc)); [|assumption].
    apply Forall_app. split; [assumption | now constructor]. }
  apply fold_left_Forall.
  { intros acc f H. unfold second_priority_step.
    destruct (in_str ext (str f)) eqn:E; cbn [andb]; [|assumption].
    destruct (negb (path_in f acc)); [|assumption].
    destruct (in_source_dir f); [|assumption].
    apply Forall_app. split; [assumption | now constructor]. }
  generalize (patterns_of ext). intros pats.
  assert (H0 : Forall (fun f => in_str ext (str f) = true) (@nil Path))
    by constructor.
  revert H0. generalize (@nil Path).
  induction pats as [|pattern pats IH]; intros acc H; cbn [fold_left];
    [assumption|].
  apply IH. apply fold_left_Forall; [|assumption].
  intros acc' f H'. unfold entry_point_step.
  destruct (name f =? pattern); cbn [andb]; [|assumption].
  destruct (in_str ext (str f)) eqn:E; [|assumption].
  destruct (in_source_dir f).
  - now constructor.
  - apply Forall_app. split; [assumption | now constructor].
Qed.

Lemma candidates_mention (ext : string) (all_files : list Path) (f : Path) :
  In f (ordered_files ext all_files) ->
  In f all_files /\ in_str ext (str f) = true.
Proof.
  intros H. split; [now apply ordered_files_from in H|].
  pose proof (ordered_files_mention_ext ext all_files) as Hall.
  rewrite Forall_forall in Hall. now apply Hall.
Qed.

(** X1: before the cut to five, the candidate list of an extension
    holds exactly the scanned files whose path contains the extension:
    ranking loses none of them and brings in no other file. *)
Theorem candidates_are_the_files_mentioning_ext (ext : string)
        (all_files : list Path) (f : Path) :
  In f (ordered_files ext all_files)
  <-> In f all_files /\ in_str ext (str f) = true.
Proof.
  split.
  - intros H. split; [now apply ordered_files_from in H|].
    pose proof (ordered_files_mention_ext ext all_files) as Hall.
    rewrite Forall_forall in Hall. now apply Hall.
  - intros [Hin Hext]. unfold ordered_files.
    now apply third_priority_complete.
Qed.

(** ** Ranking: no file twice *)

Fixpoint distinct_strings (l : list string) : bool :=
  match l with
  | [] => true
  | x :: rest => negb (in_list x rest) && distinct_strings rest
  end.

Lemma distinct_strings_NoDup (l : list string) :
  distinct_strings l = true -> NoDup l.
Proof.
  induction l as [|x l IH]; cbn [distinct_strings]; intros H; [constructor|].
  apply andb_true_iff in H. destruct H as [Hx Hl].
  constructor; [|auto]. intros Hin.
  assert (in_list x l = true).
  { unfold in_list. apply existsb_exists. exists x. split; [assumption|].
    apply String.eqb_refl. }
  rewrite H in Hx. discriminate.
Qed.

(** The entry-point names of an extension are distinct. *)
Lemma patterns_NoDup (ext : string) : NoDup (patterns_of ext).
Proof.
  unfold patterns_of.
  destruct (dict_get ext important_patterns) as [ps|] eqn:E; [|constructor].
  apply dict_get_In in E.
  assert (Hall : forallb (fun ep => distinct_strings (snd ep))
                         important_patterns = true) by (vm_compute; reflexivity).
  rewrite forallb_forall in Hall. apply distinct_strings_NoDup.
  apply (Hall _ E).
Qed.

Lemma entry_points_NoDup ext source all :
  NoDup all -> NoDup (entry_points ext source all).
Proof.
  intros Hnd. unfold entry_points. apply NoDup_flat_map.
  - apply patterns_NoDup.
  - intros pattern _. now apply NoDup_filter.
  - intros p q x _ _ Hp Hq.
    apply filter_In in Hp, Hq. destruct Hp as [_ Hp], Hq as [_ Hq].
    apply andb_true_iff in Hp, Hq. destruct Hp as [Hp _], Hq as [Hq _].
    apply String.eqb_eq in Hp, Hq. congruence.
Qed.

Lemma entry_points_source ext source all f :
  In f (entry_points ext source all) -> in_source_dir f = source.
Proof.
  unfold entry_points. rewrite in_flat_map. intros (pattern & _ & H).
  apply filter_In in H. destruct H as [_ H].
  apply andb_true_iff in H. destruct H as [_ H].
  now apply Bool.eqb_prop in H.
Qed.

Lemma NoDup_app_filter_new (wanted : Path -> bool) (acc all : list Path) :
  NoDup acc -> NoDup all ->
  NoDup (acc ++ filter (fun f => wanted f && negb (path_in f acc)) all)%list.
Proof.
  intros Hacc Hall. apply NoDup_app; [assumption | now apply NoDup_filter |].
  intros f Hf Hf'. apply filter_In in Hf'. destruct Hf' as [_ H].
  apply andb_true_iff in H. destruct H as [_ H].
  apply path_in_In in Hf. rewrite Hf in H. discriminate.
Qed.

Lemma ordered_files_NoDup ext all :
  NoDup all -> NoDup (ordered_files ext all).
Proof.
  intros Hnd. unfold ordered_files.
  rewrite first_priority_eq, second_priority_eq, third_priority_eq by assumption.
  apply NoDup_app_filter_new; [|assumption].
  apply NoDup_app_filter_new; [|assumption].
  apply NoDup_app.
  - apply NoDup_rev. now apply entry_points_NoDup.
  - now apply entry_points_NoDup.
  - intros f Hf Hf'. apply in_rev in Hf.
    apply entry_points_source in Hf, Hf'. congruence.
Qed.

Lemma NoDup_firstn {A} (n : nat) (l : list A) : NoDup l -> NoDup (firstn n l).
Proof.
  intros H. rewrite <- (firstn_skipn n l) in H.
  now apply NoDup_app_remove_r in H.
Qed.

(** X2: when the walk lists every entry once, no file is ranked twice
    for an extension, although the first loop inserts without looking
    at what the list holds. *)
Theorem no_file_is_ranked_twice (fs : FileSystem) (directory : Path)
        (ext : string) :
  NoDup (listing fs) ->
  NoDup (files_by_importance ext (snd (first_pass fs directory))).
Proof.
  intros H. unfold files_by_importance.
  apply NoDup_firstn, ordered_files_NoDup. now apply all_files_NoDup.
Qed.

Lemma no_file_is_ranked_twice_witness :
  NoDup (files_by_importance ".py" (snd (first_pass layered_repo (Path_of "/r")))).
Proof.
  apply (no_file_is_ranked_twice layered_repo (Path_of "/r") ".py").
  apply distinct_NoDup_rel. vm_compute. reflexivity.
Defined.

(** X3: an extension mentioned by at most five scanned paths loses
    nothing to the cut: its ranked files are exactly those paths. *)
Theorem few_files_are_all_ranked (ext : string) (all_files : list Path)
        (f : Path) :
  NoDup all_files ->
  List.length (filter (fun g => in_str ext (str g)) all_files) <= 5 ->
  (In f (files_by_importance ext all_files)
   <-> In f all_files /\ in_str ext (str f) = true).
Proof.
  intros Hnd Hlen.
  assert (Hshort : List.length (ordered_files ext all_files) <= 5).
  { etransitivity; [|exact Hlen].
    apply NoDup_incl_length; [now apply ordered_files_NoDup|].
    intros g Hg. apply filter_In. split.
    - now apply ordered_files_from in Hg.
    - pose proof (ordered_files_mention_ext ext all_files) as Hall.
      rewrite Forall_forall in Hall. now apply Hall. }
  unfold files_by_importance. rewrite firstn_all2 by assumption.
  split.
  - intros H. split; [now apply ordered_files_from in H|].
    pose proof (ordered_files_mention_ext ext all_files) as Hall.
    rewrite Forall_forall in Hall. now apply Hall.
  - intros [Hin Hext]. unfold ordered_files. now apply third_priority_complete.
Qed.

Lemma few_files_are_all_ranked_witness :
  In (Path_of "/r/docs/conf.py")
     (files_by_importance ".py"
        [Path_of "/r/docs/conf.py"; Path_of "/r/src/main.py"; Path_of "/r/a.go"]).
Proof.
  apply (few_files_are_all_ranked ".py"
           [Path_of "/r/docs/conf.py"; Path_of "/r/src/main.py"; Path_of "/r/a.go"]).
  - apply distinct_NoDup. vm_compute. reflexivity.
  - vm_compute. lia.
  - split; [now left | vm_compute; reflexivity].
Defined.

(** ** The scan: counts, keys and provenance *)

Lemma flat_map_ext_in {A B} (f g : A -> list B) (l : list A) :
  (forall a, In a l -> f a = g a) -> flat_map f l = flat_map g l.
Proof.
  induction l as [|a l IH]; intros H; cbn [flat_map]; [reflexivity|].
  rewrite (H a) by now left. rewrite IH; [reflexivity|].
  intros b Hb. apply H. now right.
Qed.

Section ScanFacts.
Variables (fs : FileSystem) (directory : Path).

Lemma valid_files_has_ext (ext : string) (f : Path) :
  In f (valid_files fs directory ext) -> has_ext ext f = true.
Proof.
  intros H. apply valid_files_from in H. destruct H as (rel & -> & H).
  unfold has_ext, name, joinpath. cbn [parts].
  destruct rel as [|r rel].
  - cbn [last endswith] in H. rewrite orb_false_r in H.
    apply String.eqb_eq in H. subst ext. apply endswith_empty.
  - now rewrite last_app_nonempty by discriminate.
Qed.

Lemma valid_files_in_all_files (ext : string) (f : Path) :
  In ext (keys important_patterns) ->
  In f (valid_files fs directory ext) ->
  In f (snd (first_pass fs directory)).
Proof.
  intros He Hf. rewrite first_pass_eq. cbn [snd].
  apply in_flat_map. now exists ext.
Qed.

Lemma In_count_of (exts : list string) (ext : string) (n : nat) :
  In (ext, n) (flat_map (count_of fs directory) exts)
  <-> In ext exts /\ n = List.length (valid_files fs directory ext) /\ 0 < n.
Proof.
  rewrite in_flat_map. split.
  - intros (e & He & H). unfold count_of in H.
    destruct (valid_files fs directory e) as [|f valid] eqn:E; [destruct H|].
    destruct H as [[= <- <-]|[]]. rewrite E. cbn [List.length].
    repeat split; [assumption | lia].
  - intros (He & -> & Hpos). exists ext. split; [assumption|].
    unfold count_of.
    destruct (valid_files fs directory ext) as [|f valid]; [cbn in Hpos; lia|].
    now left.
Qed.

Lemma all_files_length (exts : list string) :
  List.length (flat_map (valid_files fs directory) exts)
  = list_sum (values (flat_map (count_of fs directory) exts)).
Proof.
  induction exts as [|e exts IH]; cbn [flat_map]; [reflexivity|].
  unfold values in *. rewrite length_app, map_app, list_sum_app, IH.
  f_equal. unfold count_of.
  destruct (valid_files fs directory e); cbn; lia.
Qed.

(** X5: [language_counts] holds, for each catalog extension with at
    least one valid file, the number of its valid files, and nothing
    else; the counts add up to the length of [all_files]. *)
Theorem language_counts_are_file_counts :
  (forall ext n,
      In (ext, n) (fst (first_pass fs directory))
      <-> In ext (keys important_patterns)
          /\ n = List.length (valid_files fs directory ext) /\ 0 < n)
  /\ List.length (snd (first_pass fs directory))
     = list_sum (values (fst (first_pass fs directory))).
Proof.
  rewrite first_pass_eq. cbn [fst snd]. split.
  - intros ext n. apply In_count_of.
  - apply all_files_length.
Qed.

(** A primary language has at least one ranked file. *)
Lemma primary_language_has_ranked_files (ext : string) :
  In ext (primary_languages (fst (first_pass fs directory))) ->
  files_by_importance ext (snd (first_pass fs directory)) <> [].
Proof.
  intros Hp. apply primary_languages_In in Hp. destruct Hp as (n & Hin & _).
  rewrite first_pass_eq in Hin. cbn [fst] in Hin.
  apply In_count_of in Hin. destruct Hin as (He & Hn & Hpos).
  destruct (valid_files fs directory ext) as [|f valid] eqn:E;
    [subst n; cbn in Hpos; lia|].
  assert (Hf : In f (valid_files fs directory ext)) by (rewrite E; now left).
  assert (Hord : In f (ordered_files ext (snd (first_pass fs directory)))).
  { unfold ordered_files. apply third_priority_complete.
    - now apply valid_files_in_all_files with ext.
    - apply name_endswith_in_str. now apply valid_files_has_ext. }
  unfold files_by_importance.
  destruct (ordered_files ext (snd (first_pass fs directory))); [destruct Hord|].
  discriminate.
Qed.

Lemma keys_contents_of_full (all_files : list Path) (exts : list string) :
  (forall ext, In ext exts -> files_by_importance ext all_files <> []) ->
  keys (flat_map (contents_of fs directory all_files) exts) = exts.
Proof.
  induction exts as [|e exts IH]; intros H; cbn [flat_map]; [reflexivity|].
  unfold keys in *. rewrite map_app, IH by (intros x Hx; apply H; now right).
  unfold contents_of.
  destruct (files_by_importance e all_files) eqn:E; [|reflexivity].
  exfalso. apply (H e); [now left | exact E].
Qed.

(** X4: when the scan succeeds, the keys of the returned mapping are
    the primary languages, all of them and in catalog order, so the
    mapping is never empty; a language whose ranked files all fail to
    be read keeps its key, with an empty list. *)
Theorem scan_keys_are_the_primary_languages w w' file_contents :
  analyze_directory fs directory w = (w', Ok file_contents) ->
  keys file_contents = primary_languages (fst (first_pass fs directory))
  /\ file_contents <> [].
Proof.
  rewrite analyze_directory_eq.
  pose proof primary_language_has_ranked_files as Hranked.
  destruct (first_pass fs directory) as [lc all] eqn:E. cbn [fst snd] in *.
  destruct lc as [|c lc]; [discriminate|]. intros [= _ <-].
  assert (Hkeys : keys (flat_map (contents_of fs directory all)
                                 (primary_languages (c :: lc)))
                  = primary_languages (c :: lc))
    by now apply keys_contents_of_full.
  split; [exact Hkeys|].
  intros Hnil. rewrite Hnil in Hkeys. unfold keys in Hkeys. cbn [map] in Hkeys.
  apply (primary_languages_nonempty (c :: lc)); [discriminate | now symmetry].
Qed.

(** X7: every entry of the returned mapping comes from an entry of
    the walk whose path passed the ignore filter and mentions the
    extension it is stored under, and which could be read: the entry
    is its header line followed by its text. *)
Theorem every_entry_comes_from_a_kept_file w w' file_contents ext contents entry :
  analyze_directory fs directory w = (w', Ok file_contents) ->
  In (ext, contents) file_contents ->
  In entry contents ->
  exists rel content,
    In rel (listing fs)
    /\ is_ignored (joinpath directory rel) = false
    /\ in_str ext (str (joinpath directory rel)) = true
    /\ read_text fs (joinpath directory rel) = Ok content
    /\ entry = "# File: " ++ str (mkPath false rel) ++ nl ++ content.
Proof.
  rewrite analyze_directory_eq.
  pose proof (all_files_inv fs directory) as Hinv.
  destruct (first_pass fs directory) as [lc all]. cbn [snd] in Hinv.
  destruct lc as [|c lc]; [discriminate|]. intros [= _ <-] Hin Hentry.
  apply in_flat_map in Hin. destruct Hin as (e & _ & Hin).
  assert (Hc : ext = e
               /\ contents = flat_map (stored fs directory)
                                      (files_by_importance e all)).
  { unfold contents_of in Hin.
    destruct (files_by_importance e all) as [|f0 files]; [destruct Hin|].
    destruct Hin as [Hin|[]]. inversion Hin. split; reflexivity. }
  destruct Hc as [-> ->].
  apply in_flat_map in Hentry. destruct Hentry as (f & Hf & Hentry).
  assert (Hord : In f (ordered_files e all))
    by (unfold files_by_importance in Hf; now apply In_firstn in Hf).
  apply candidates_mention in Hord. destruct Hord as [Hall Hext].
  destruct (Hinv f Hall) as (Hig & rel & Hrel & ->).
  unfold stored in Hentry.
  destruct (read_text fs (joinpath directory rel)) as [content|err] eqn:Er;
    [|destruct Hentry].
  destruct Hentry as [<-|[]]. exists rel, content.
  repeat split; try assumption.
  unfold relative_parts, joinpath. cbn [parts].
  now rewrite skipn_app, skipn_all, Nat.sub_diag.
Qed.
End ScanFacts.

(** ** The "no recognized source" error *)






(** A repository whose only source file cannot be read. *)
Definition unreadable_repo : FileSystem :=
  mkFS [ ["a.py"] ] (fun p => Raise (Exn OSError "[Errno 13] Permission denied")).

Lemma scan_keys_are_the_primary_languages_witness :
  keys [(".py", @nil string)]
  = primary_languages (fst (first_pass unreadable_repo (Path_of "/r")))
  /\ [(".py", @nil string)] <> [].
Proof.
  eapply (scan_keys_are_the_primary_languages unreadable_repo (Path_of "/r")
            empty_world).
  vm_compute. reflexivity.
Defined.

Lemma every_entry_comes_from_a_kept_file_witness :
  exists rel content,
    In rel (listing sample_repo)
    /\ is_ignored (joinpath (Path_of "/tmp/test_repo") rel) = false
    /\ in_str ".py" (str (joinpath (Path_of "/tmp/test_repo") rel)) = true
    /\ read_text sample_repo (joinpath (Path_of "/tmp/test_repo") rel) = Ok content
    /\ "# File: src/utils.py" ++ nl ++ "def helper():" ++ nl ++ "    return True"
       = "# File: " ++ str (mkPath false rel) ++ nl ++ content.
Proof.
  eapply (every_entry_comes_from_a_kept_file sample_repo (Path_of "/tmp/test_repo")
            empty_world) with (ext := ".py").
  - vm_compute. reflexivity.
  - left. reflexivity.
  - right. left. reflexivity.
Defined.

(** X6: the scan reads the ranked files and no other: two trees with
    the same walk whose ranked files read alike give the same result,
    printed lines included, whatever the other files hold. *)
Theorem scan_reads_only_ranked_files (fs1 fs2 : FileSystem) (directory : Path)
        (w : World) :
  listing fs1 = listing fs2 ->
  (forall ext f,
      In ext (primary_languages (fst (first_pass fs1 directory))) ->
      In f (files_by_importance ext (snd (first_pass fs1 directory))) ->
      read_text fs1 f = read_text fs2 f) ->
  analyze_directory fs1 directory w = analyze_directory fs2 directory w.
Proof.
  intros Hl Hread.
  assert (Hvalid : forall ext, valid_files fs1 directory ext
                               = valid_files fs2 directory ext).
  { intros ext. unfold valid_files, rglob. now rewrite Hl. }
  assert (Hfirst : first_pass fs1 directory = first_pass fs2 directory).
  { rewrite !first_pass_eq. f_equal.
    - apply flat_map_ext_in. intros ext _. unfold count_of. now rewrite Hvalid.
    - apply flat_map_ext_in. intros ext _. apply Hvalid. }
  rewrite !analyze_directory_eq. rewrite <- Hfirst.
  destruct (first_pass fs1 directory) as [lc all]. cbn [fst snd] in Hread.
  destruct lc as [|c lc]; [reflexivity|]. f_equal.
  - f_equal. apply flat_map_ext_in. intros ext He. unfold reports_of.
    apply flat_map_ext_in. intros f Hf. unfold reported.
    now rewrite (Hread ext f He Hf).
  - f_equal. apply flat_map_ext_in. intros ext He. unfold contents_of.
    assert (Hst : flat_map (stored fs1 directory) (files_by_importance ext all)
                  = flat_map (stored fs2 directory) (files_by_importance ext all)).
    { apply flat_map_ext_in. intros f Hf. unfold stored.
      now rewrite (Hread ext f He Hf). }
    destruct (files_by_importance ext all); [reflexivity|]. now rewrite Hst.
Qed.

(** Seven Python files of which the last cannot be read. *)
Definition seventh_unreadable : FileSystem :=
  mkFS (listing (repo_with 7 0))
       (fun p => if name p =? "g.py"
                 then Raise (Exn OSError "[Errno 13] Permission denied")
                 else Ok (name p)).

Lemma scan_reads_only_ranked_files_witness :
  analyze_directory (repo_with 7 0) (Path_of "/repo") empty_world
  = analyze_directory seventh_unreadable (Path_of "/repo") empty_world.
Proof.
  apply (scan_reads_only_ranked_files (repo_with 7 0) seventh_unreadable).
  - reflexivity.
  - intros ext f He Hf. vm_compute in He. destruct He as [<-|[]].
    vm_compute in Hf.
    repeat (destruct Hf as [<-|Hf]; [vm_compute; reflexivity|]).
    destruct Hf.
Defined.

(** ** The project type *)

Lemma max_by_count_spec (rest : dict nat) :
  forall (before : dict nat) (best : string * nat) (between : dict nat),
    (forall x, In x before -> snd x < snd best) ->
    (forall x, In x between -> snd x <= snd best) ->
    exists before' best' after,
      (before ++ best :: between ++ rest)%list = (before' ++ best' :: after)%list
      /\ (forall x, In x before' -> snd x < snd best')
      /\ (forall x, In x after -> snd x <= snd best')
      /\ max_by_count best rest = fst best'.
Proof.
  induction rest as [|[e n] rest IH]; intros before best between Hb Hm.
  - exists before, best, between. rewrite app_nil_r. auto.
  - cbn [max_by_count]. destruct (snd best <? n)%nat eqn:E.
    + apply Nat.ltb_lt in E.
      destruct (IH (before ++ best :: between)%list (e, n) [])
        as (b' & x' & a' & Heq & H1 & H2 & H3).
      * intros x Hx. cbn [snd]. apply in_app_or in Hx.
        destruct Hx as [Hx|[<-|Hx]]; [apply Hb in Hx | | apply Hm in Hx]; lia.
      * intros x [].
      * exists b', x', a'. repeat split; try assumption.
        rewrite <- Heq. rewrite <- app_assoc. reflexivity.
    + apply Nat.ltb_ge in E.
      destruct (IH before best (between ++ [(e, n)])%list)
        as (b' & x' & a' & Heq & H1 & H2 & H3).
      * assumption.
      * intros x Hx. apply in_app_or in Hx.
        destruct Hx as [Hx|[<-|[]]]; [now apply Hm | exact E].
      * exists b', x', a'. repeat split; try assumption.
        rewrite <- Heq. rewrite <- app_assoc. reflexivity.
Qed.

(** X8: for a non-empty mapping, the project type is read off the
    first extension, in the order of the mapping, that has the most
    entries: everything before it has strictly fewer, nothing after
    it has more; an extension without a display name gives
    "Unknown". *)
Theorem project_type_of_first_largest (file_contents : dict (list string)) :
  file_contents <> [] ->
  exists before ext contents after,
    file_contents = (before ++ (ext, contents) :: after)%list
    /\ (forall e c, In (e, c) before -> List.length c < List.length contents)
    /\ (forall e c, In (e, c) after -> List.length c <= List.length contents)
    /\ _detect_project_type file_contents
       = match dict_get ext type_mapping with
         | Some t => t
         | None => "Unknown"
         end.
Proof.
  intros Hne. destruct file_contents as [|first rest]; [congruence|].
  unfold _detect_project_type. cbn [map].
  set (counted := fun ef : string * list string => (fst ef, List.length (snd ef))).
  destruct (max_by_count_spec (map counted rest) [] (counted first) [])
    as (b' & x' & a' & Heq & H1 & H2 & H3); [intros x [] | intros x [] |].
  cbn [app] in Heq.
  change (counted first :: map counted rest) with (map counted (first :: rest))
    in Heq.
  apply map_eq_app in Heq. destruct Heq as (before & l2 & Hfc & Hb & Hl2).
  apply map_eq_cons in Hl2. destruct Hl2 as ([ext contents] & after & -> & Hx & Ha).
  exists before, ext, contents, after. subst b' x' a'.
  split; [exact Hfc|]. split; [|split].
  - intros e c Hin. apply (H1 (counted (e, c))). now apply in_map.
  - intros e c Hin. apply (H2 (counted (e, c))). now apply in_map.
  - change (fst first, List.length (snd first)) with (counted first).
    rewrite H3. reflexivity.
Qed.

Lemma project_type_of_first_largest_witness :
  exists before ext contents after,
    [(".py", ["a"]); (".go", ["b"; "c"]); (".rs", ["d"; "e"])]
    = (before ++ (ext, contents) :: after)%list
    /\ (forall e c, In (e, c) before -> List.length c < List.length contents)
    /\ (forall e c, In (e, c) after -> List.length c <= List.length contents)
    /\ _detect_project_type [(".py", ["a"]); (".go", ["b"; "c"]); (".rs", ["d"; "e"])]
       = match dict_get ext type_mapping with
         | Some t => t
         | None => "Unknown"
         end.
Proof.
  apply (project_type_of_first_largest
           [(".py", ["a"]); (".go", ["b"; "c"]); (".rs", ["d"; "e"])]).
  discriminate.
Defined.

Lemma max_by_count_in (rest : dict nat) (best : string * nat) :
  In (max_by_count best rest) (fst best :: keys rest).
Proof.
  revert best. induction rest as [|[e n] rest IH]; intros best;
    cbn [max_by_count]; [now left|].
  destruct (snd best <? n)%nat.
  - right. apply (IH (e, n)).
  - destruct (IH best) as [H|H]; [now left | now right; right].
Qed.

(** X9: the mapping of a successful scan always has a project type
    from the table: the name of one of its keys, never "Unknown". *)
Theorem scan_project_type_is_known fs directory w w' file_contents :
  analyze_directory fs directory w = (w', Ok file_contents) ->
  _detect_project_type file_contents <> "Unknown"
  /\ exists ext,
      In ext (keys file_contents)
      /\ dict_get ext type_mapping = Some (_detect_project_type file_contents).
Proof.
  intros Hscan.
  assert (Hkeys : forall ext, In ext (keys file_contents) ->
                              In ext (keys important_patterns)).
  { revert Hscan. rewrite analyze_directory_eq.
    pose proof (first_pass_eq fs directory) as Hfp.
    destruct (first_pass fs directory) as [lc all].
    destruct lc as [|c lc]; [discriminate|]. intros [= _ <-] ext Hin.
    apply keys_contents_of in Hin. apply primary_languages_In in Hin.
    destruct Hin as (n & Hin & _).
    apply (f_equal fst) in Hfp. cbn [fst] in Hfp. rewrite Hfp in Hin.
    apply In_count_of in Hin. tauto. }
  assert (Hne : file_contents <> []).
  { revert Hscan. rewrite analyze_directory_eq.
    pose proof (primary_language_has_ranked_files fs directory) as Hranked.
    destruct (first_pass fs directory) as [lc all]. cbn [fst snd] in Hranked.
    destruct lc as [|c lc]; [discriminate|]. intros [= _ <-] Hnil.
    destruct (primary_languages (c :: lc)) as [|e exts] eqn:Ep.
    - revert Ep. apply primary_languages_nonempty. discriminate.
    - cbn [flat_map] in Hnil. apply app_eq_nil in Hnil. destruct Hnil as [Hnil _].
      unfold contents_of in Hnil.
      destruct (files_by_importance e all) eqn:Ef; [|discriminate].
      revert Ef. apply Hranked. now left. }
  assert (Htable : forallb (fun k => match dict_get k type_mapping with
                                     | Some t => negb (t =? "Unknown")
                                     | None => false
                                     end)
                           (keys important_patterns) = true)
    by (vm_compute; reflexivity).
  rewrite forallb_forall in Htable.
  destruct file_contents as [|first rest]; [congruence|].
  unfold _detect_project_type. cbn [map].
  set (counted := fun ef : string * list string => (fst ef, List.length (snd ef))).
  change (fst first, List.length (snd first)) with (counted first).
  pose proof (max_by_count_in (map counted rest) (counted first)) as Hin.
  assert (Hk : In (max_by_count (counted first) (map counted rest))
                  (keys (first :: rest))).
  { unfold keys in *. cbn [map]. rewrite map_map in Hin. exact Hin. }
  specialize (Htable _ (Hkeys _ Hk)).
  destruct (dict_get (max_by_count (counted first) (map counted rest))
                     type_mapping) as [t|] eqn:Et; [|discriminate].
  split.
  - intros ->. discriminate.
  - eexists. split; [exact Hk | exact Et].
Qed.

Lemma scan_project_type_is_known_witness :
  _detect_project_type
    [ (".py", ["# File: tools/gen.py" ++ nl ++ "# gen"]);
      (".js", ["# File: server.js" ++ nl ++ "// server";
               "# File: tools/gen.py" ++ nl ++ "# gen"]) ]
  <> "Unknown"
  /\ exists ext,
      In ext (keys [ (".py", ["# File: tools/gen.py" ++ nl ++ "# gen"]);
                     (".js", ["# File: server.js" ++ nl ++ "// server";
                              "# File: tools/gen.py" ++ nl ++ "# gen"]) ])
      /\ dict_get ext type_mapping
         = Some (_detect_project_type
                   [ (".py", ["# File: tools/gen.py" ++ nl ++ "# gen"]);
                     (".js", ["# File: server.js" ++ nl ++ "// server";
                              "# File: tools/gen.py" ++ nl ++ "# gen"]) ]).
Proof.
  eapply (scan_project_type_is_known three_js_repo (Path_of "three.js")
            empty_world).
  vm_compute. reflexivity.
Defined.

(** ** Generation *)



(** X11: an error of the backend is fatal: after a successful scan
    [generate_readme] sends its single request and raises the very
    error the backend raised, without a second attempt and without
    touching what the scan printed. *)
Theorem backend_error_is_raised fs backend self repo_path verbose
        w w' file_contents e :
  analyze_directory fs (Path_of repo_path) w = (w', Ok file_contents) ->
  backend (completion_request self verbose (_detect_project_type file_contents)
                              file_contents) = Raise e ->
  generate_readme fs backend self repo_path verbose w
  = (mkWorld (stdout w')
             (requests w
              ++ [completion_request self verbose
                    (_detect_project_type file_contents) file_contents])%list
             (written w),
     Raise e).
Proof.
  intros Hscan Hb.
  destruct (analyze_directory_requests _ _ _ _ _ Hscan) as [Hreq Hwr].
  unfold generate_readme, bind. rewrite Hscan.
  unfold chat_completions_create. now rewrite Hb, Hreq, Hwr.
Qed.

Definition failing_backend : Backend :=
  fun _ => Raise (Exn APIError "Connection error.").

Lemma backend_error_is_raised_witness :
  snd (generate_readme sample_repo failing_backend some_generator
                       "/tmp/test_repo" false empty_world)
  = Raise (Exn APIError "Connection error.").
Proof.
  erewrite (backend_error_is_raised sample_repo failing_backend some_generator
              "/tmp/test_repo" false empty_world).
  - reflexivity.
  - vm_compute. reflexivity.
  - reflexivity.
Defined.

Lemma append_empty_r (s : string) : s ++ "" = s.
Proof. induction s as [|c s IH]; cbn; [reflexivity | now rewrite IH]. Qed.

Lemma prefix_app (a b : string) : prefix a (a ++ b) = true.
Proof.
  induction a as [|c a IH]; cbn; [now destruct b|].
  destruct (ascii_dec c c); [assumption | congruence].
Qed.

Lemma prefix_app_l (needle a b : string) :
  prefix needle a = true -> prefix needle (a ++ b) = true.
Proof.
  revert a. induction needle as [|c needle IH]; intros a H; [now destruct (a ++ b)|].
  destruct a as [|d a]; [discriminate|]. cbn in *.
  destruct (ascii_dec c d); [now apply IH | discriminate].
Qed.

Lemma in_str_app_l (needle a b : string) :
  in_str needle a = true -> in_str needle (a ++ b) = true.
Proof.
  induction a as [|c a IH]; intros H.
  - cbn [in_str] in H. destruct (prefix needle "") eqn:E; [|discriminate].
    apply in_str_prefix. now apply (prefix_app_l needle "" b).
  - cbn [in_str] in H. change (String c a ++ b) with (String c (a ++ b)).
    cbn [in_str]. destruct (prefix needle (String c a)) eqn:E.
    + pose proof (prefix_app_l needle (String c a) b E) as P.
      change (String c a ++ b) with (String c (a ++ b)) in P. now rewrite P.
    + rewrite (IH H). now destruct (prefix needle (String c (a ++ b))).
Qed.

Lemma in_str_middle (needle a b : string) : in_str needle (a ++ needle ++ b) = true.
Proof. apply in_str_app_r, in_str_prefix, prefix_app. Qed.

Lemma concat_cons (x : string) (xs : list string) :
  concat "" (x :: xs) = x ++ concat "" xs.
Proof. destruct xs; cbn; [now rewrite append_empty_r | reflexivity]. Qed.

Lemma in_str_concat (needle : string) (xs : list string) :
  In needle xs -> in_str needle (concat "" xs) = true.
Proof.
  induction xs as [|x xs IH]; intros H; [destruct H|].
  rewrite concat_cons. destruct H as [->|H].
  - apply in_str_prefix, prefix_app.
  - apply in_str_app_r. auto.
Qed.

Lemma in_str_code_listing (items : dict (list string)) ext contents entry :
  In (ext, contents) items -> In entry contents ->
  in_str (nl ++ ext ++ " files:" ++ nl) (code_listing items) = true
  /\ in_str (entry ++ nl) (code_listing items) = true.
Proof.
  induction items as [|[e c] items IH]; intros Hin Hentry; [destruct Hin|].
  destruct Hin as [[= -> ->]|Hin].
  - destruct contents as [|x xs]; [destruct Hentry|].
    cbn [code_listing]. split.
    + replace (nl ++ ext ++ " files:" ++ nl
                  ++ concat "" (map (fun content => content ++ nl) (x :: xs))
                  ++ code_listing items)
        with ((nl ++ ext ++ " files:" ++ nl)
                ++ concat "" (map (fun content => content ++ nl) (x :: xs))
                ++ code_listing items)
        by (now rewrite !append_assoc).
      apply in_str_prefix, prefix_app.
    + do 4 apply in_str_app_r. apply in_str_app_l, in_str_concat.
      apply in_map_iff. now exists entry.
  - destruct (IH Hin Hentry) as [H1 H2]. cbn [code_listing].
    destruct c; [now split|]. split; now do 5 apply in_str_app_r.
Qed.

(** X12: the user message of the request quotes every entry of the
    mapping, each followed by a newline, under a heading that names
    its extension, in brief and in detailed mode alike. *)
Theorem prompt_quotes_every_entry self verbose project_type
        (file_contents : dict (list string)) ext contents entry :
  In (ext, contents) file_contents ->
  In entry contents ->
  in_str (nl ++ ext ++ " files:" ++ nl)
         (req_user (completion_request self verbose project_type file_contents))
  = true
  /\ in_str (entry ++ nl)
            (req_user (completion_request self verbose project_type file_contents))
     = true.
Proof.
  intros Hin Hentry. cbn [completion_request req_user]. unfold prompt_of.
  destruct (in_str_code_listing _ _ _ _ Hin Hentry) as [H1 H2].
  split; now do 4 apply in_str_app_r.
Qed.

Lemma prompt_quotes_every_entry_witness :
  in_str (nl ++ ".py" ++ " files:" ++ nl)
         (req_user (completion_request some_generator false "Python"
                      [(".py", ["# File: a.py" ++ nl ++ "x = 1"])]))
  = true
  /\ in_str (("# File: a.py" ++ nl ++ "x = 1") ++ nl)
            (req_user (completion_request some_generator false "Python"
                         [(".py", ["# File: a.py" ++ nl ++ "x = 1"])]))
     = true.
Proof.
  apply (prompt_quotes_every_entry some_generator false "Python"
           [(".py", ["# File: a.py" ++ nl ++ "x = 1"])] ".py"
           ["# File: a.py" ++ nl ++ "x = 1"]).
  - left. reflexivity.
  - left. reflexivity.
Defined.

(** ** Configuration: merging *)




Lemma keys_dict_set_old {V} (key : string) (v : V) (d : dict V) :
  In key (keys d) -> keys (dict_set key v d) = keys d.
Proof.
  unfold keys. induction d as [|[k w] d IH]; cbn [dict_set map fst];
    intros H; [destruct H|].
  destruct (k =? key) eqn:E; [reflexivity|]. cbn [map fst]. f_equal.
  apply IH. destruct H as [H|H]; [|assumption].
  apply String.eqb_neq in E. congruence.
Qed.

(** The value that lines 127-130 leave under [key]. *)
Definition merged_value (key : string) (value : yaml) (base : dict yaml) : yaml :=
  match dict_get key base, value with
  | Some (YMap sub), YMap _ => YMap (merge_dict value sub)
  | _, _ => value
  end.

(** One round of the loop of line 126. *)
Lemma merge_dict_cons (key : string) (value : yaml)
      (rest : list (string * yaml)) (base : dict yaml) :
  merge_dict (YMap ((key, value) :: rest)) base
  = merge_dict (YMap rest) (dict_set key (merged_value key value base) base).
Proof.
  unfold merged_value. cbn [merge_dict].
  destruct (dict_get key base) as [[| | | | |sub]|]; try reflexivity.
  destruct value; reflexivity.
Qed.





Lemma keys_merge_dict (items : list (string * yaml)) :
  forall base : dict yaml,
  exists added,
    keys (merge_dict (YMap items) base) = (keys base ++ added)%list
    /\ forall key, In key added <-> In key (keys items) /\ ~ In key (keys base).
Proof.
  induction items as [|[k v] items IH]; intros base.
  - exists []. cbn. rewrite app_nil_r. split; [reflexivity|]. tauto.
  - rewrite merge_dict_cons.
    destruct (IH (dict_set k (merged_value k v base) base)) as (added & Hk & Ha).
    destruct (in_dec string_dec k (keys base)) as [Hin|Hout].
    + rewrite keys_dict_set_old in Hk, Ha by assumption.
      exists added. split; [exact Hk|]. intros key. rewrite Ha.
      unfold keys. cbn [map fst]. split.
      * intros [H1 H2]. split; [now right | assumption].
      * intros [[<-|H1] H2]; [contradiction | now split].
    + rewrite dict_set_fresh in Hk, Ha |- * by assumption.
      unfold keys in Hk, Ha. rewrite map_app in Hk, Ha. cbn [map fst] in Hk, Ha.
      exists (k :: added). split.
      * unfold keys. rewrite Hk, <- app_assoc. reflexivity.
      * intros key. unfold keys. cbn [map fst In]. rewrite Ha.
        rewrite in_app_iff. cbn [In]. split.
        -- intros [<-|[H1 H2]]; [split; [now left | assumption]|].
           split; [now right | tauto].
        -- intros [[<-|H1] H2]; [now left|].
           destruct (string_dec k key) as [->|Hne]; [now left|].
           right. split; [assumption|]. intros [H|[H|[]]]; contradiction.
Qed.

(** X14: merging keeps the keys of the base in their places and puts
    the keys that only the override has after them: no key is dropped
    and none is moved. *)
Theorem merge_keeps_the_keys_of_base (base items : list (string * yaml)) :
  exists merged added,
    _merge_configs (YMap base) (YMap items) = Ok (YMap merged)
    /\ keys merged = (keys base ++ added)%list
    /\ forall key, In key added <-> In key (keys items) /\ ~ In key (keys base).
Proof.
  destruct (keys_merge_dict items base) as (added & Hk & Ha).
  exists (merge_dict (YMap items) base), added. split; [|split; assumption].
  destruct items as [|[k v] items]; reflexivity.
Qed.

(** ** Configuration: loading *)

(** X15: a generator is only ever built from a configuration whose
    [openai] section holds a key that is neither missing, empty nor a
    placeholder; the generator carries that key, and the model of the
    section or, without one, [gpt-4-0125-preview]. *)
Theorem generator_key_is_usable (env : ConfigEnv) (generator : Generator) :
  ReadmeGenerator env = Ok generator ->
  _load_config env = Ok (config generator)
  /\ truthy (api_key generator) = true
  /\ is_placeholder (api_key generator) = false
  /\ exists section,
      config_openai (config generator) = Ok (YMap section)
      /\ dict_get "api_key" section = Some (api_key generator)
      /\ model generator
         = match dict_get "model" section with
           | Some m => m
           | None => YStr "gpt-4-0125-preview"
           end.
Proof.
  unfold ReadmeGenerator. destruct (_load_config env) as [cfg|e]; [|discriminate].
  unfold _init_openai. destruct (config_openai cfg) as [section|e] eqn:Ec;
    [|discriminate].
  destruct section as [| | | | |entries]; try discriminate.
  cbn [section_get].
  destruct (dict_get "api_key" entries) as [key|] eqn:Ek; [|discriminate].
  destruct (truthy key) eqn:Et; cbn [negb orb]; [|discriminate].
  destruct (is_placeholder key) eqn:Ep; [discriminate|].
  destruct (dict_get "model" entries) as [m|] eqn:Em; intros [= <-];
    cbn [config api_key model]; repeat split; try assumption;
    exists entries; rewrite Em; repeat split; assumption.
Qed.

Lemma generator_key_is_usable_witness :
  truthy (YStr "sk-test") = true /\ is_placeholder (YStr "sk-test") = false.
Proof.
  destruct (generator_key_is_usable configured
              (mkGenerator
                 (YMap [("openai", YMap [("model", YStr "gpt-4-0125-preview");
                                         ("api_key", YStr "sk-test")])])
                 (YStr "sk-test") (YStr "gpt-4-0125-preview")))
    as (_ & Ht & Hp & _).
  - vm_compute. reflexivity.
  - split; [exact Ht | exact Hp].
Defined.

(** X16: the first-run fallback of lines 55-58 never yields a
    configuration: when none of the three places has [example.yaml],
    construction always raises, with the error of [mkdir], the
    [FileNotFoundError] of the copy when the package directory exists,
    or else the [NameError] of line 89. *)
Theorem first_run_never_configures (env : ConfigEnv) :
  example_exists (package_config env) = false ->
  example_exists (user_config env) = false ->
  example_exists (system_config env) = false ->
  exists e,
    ReadmeGenerator env = Raise e
    /\ (mkdir_user_config env = Raise e
        \/ (package_config env <> None
            /\ e = no_such_file (joinpath (package_config_path env) ["example.yaml"]))
        \/ (package_config env = None
            /\ e = Exn NameError "name 'possible_config_dirs' is not defined")).
Proof.
  intros Hp Hu Hs. unfold ReadmeGenerator, _load_config, possible_config_dirs.
  cbn [find snd]. rewrite Hp, Hu, Hs.
  destruct (mkdir_user_config env) as [[]|e] eqn:Em.
  - unfold _copy_default_configs.
    destruct (package_config env) as [pkg|] eqn:Epkg.
    + cbn [example_exists] in Hp.
      destruct (example_yaml pkg); [discriminate|].
      eexists. split; [reflexivity|]. right. left. split; [discriminate | reflexivity].
    + assert (Hex : match match user_config env with
                                | Some cd => cd
                                | None => mkConfigDir None false None
                                end
                    with cd => example_yaml cd end = None).
      { destruct (user_config env) as [cd|]; [|reflexivity].
        cbn [example_exists] in Hu. now destruct (example_yaml cd). }
      rewrite missing_example_raises_NameError by exact Hex.
      eexists. split; [reflexivity|]. right. right. split; reflexivity.
  - exists e. split; [reflexivity | now left].
Qed.

Lemma first_run_never_configures_witness :
  exists e, ReadmeGenerator unconfigured = Raise e.
Proof.
  destruct (first_run_never_configures unconfigured) as (e & He & _);
    try reflexivity.
  now exists e.
Defined.



(** X18: the search order of lines 44-53: a place with [example.yaml]
    hides the places after it.  With the file in the package
    directory, neither the user nor the system directory matters, nor
    does [mkdir]; with the file missing there and present in the user
    directory, the system directory does not matter. *)
Theorem earlier_config_dir_hides_later (env : ConfigEnv)
        (user system : option ConfigDir) (mkdir : result unit) :
  (example_exists (package_config env) = true ->
   ReadmeGenerator
     (mkConfigEnv (package_root env) (home env) (package_config env)
                  user system mkdir)
   = ReadmeGenerator env)
  /\ (example_exists (package_config env) = false ->
      example_exists (user_config env) = true ->
      ReadmeGenerator
        (mkConfigEnv (package_root env) (home env) (package_config env)
                     (user_config env) system mkdir)
      = ReadmeGenerator env).
Proof.
  split.
  - intros Hp. unfold ReadmeGenerator, _load_config, possible_config_dirs.
    cbn [find snd package_config]. rewrite Hp.
    unfold _read_configs, package_config_path. cbn [package_root].
    destruct (package_config env) as [cd|]; [|discriminate].
    destruct (example_yaml cd) as [[y|e]|]; reflexivity.
  - intros Hp Hu. unfold ReadmeGenerator, _load_config, possible_config_dirs.
    cbn [find snd package_config user_config]. rewrite Hp, Hu.
    unfold _read_configs, user_config_path. cbn [home].
    destruct (user_config env) as [cd|]; [|discriminate].
    destruct (example_yaml cd) as [[y|e]|]; reflexivity.
Qed.

Lemma earlier_config_dir_hides_later_witness :
  ReadmeGenerator
    (mkConfigEnv (package_root configured) (home configured)
                 (package_config configured)
                 (Some (mkConfigDir (Some (Ok YNull)) false None)) None
                 (Raise (Exn OSError "[Errno 13] Permission denied")))
  = ReadmeGenerator configured.
Proof.
  apply (earlier_config_dir_hides_later configured). reflexivity.
Defined.

(** X19: once [example.yaml] is loaded and [secrets.yaml] exists,
    whatever goes wrong with the secrets (opening, parsing, merging a
    document that is no mapping) surfaces as a [ValueError] whose
    message starts with "Error reading secrets.yaml: "; otherwise the
    result is the merge of the two documents. *)
Theorem secrets_errors_are_wrapped (env : ConfigEnv) (config_dir : Path)
        (cd : ConfigDir) (example : yaml) (secrets_file : result yaml) :
  example_yaml cd = Some (Ok example) ->
  secrets_yaml cd = Some secrets_file ->
  (exists secrets merged,
      secrets_file = Ok secrets
      /\ _merge_configs example secrets = Ok merged
      /\ _read_configs env config_dir (Some cd) = Ok merged)
  \/ (exists e,
         (secrets_file = Raise e
          \/ exists secrets, secrets_file = Ok secrets
                             /\ _merge_configs example secrets = Raise e)
         /\ _read_configs env config_dir (Some cd)
            = Raise (Exn ValueError ("Error reading secrets.yaml: " ++ exn_msg e))).
Proof.
  intros Hex Hsec. unfold _read_configs. rewrite Hex, Hsec. cbn [load_yaml].
  destruct secrets_file as [secrets|e].
  - destruct (_merge_configs example secrets) as [merged|e] eqn:Em.
    + left. exists secrets, merged. auto.
    + right. exists e. split; [|reflexivity]. right. exists secrets. auto.
  - right. exists e. split; [now left | reflexivity].
Qed.

Lemma secrets_errors_are_wrapped_witness :
  exists e,
    _read_configs unconfigured (Path_of "/etc/read-you")
      (Some (mkConfigDir (Some (Ok (YMap [("openai", YMap [])]))) false
                         (Some (Ok YNull))))
    = Raise (Exn ValueError ("Error reading secrets.yaml: " ++ exn_msg e)).
Proof.
  destruct (secrets_errors_are_wrapped unconfigured (Path_of "/etc/read-you")
              (mkConfigDir (Some (Ok (YMap [("openai", YMap [])]))) false
                           (Some (Ok YNull)))
              (YMap [("openai", YMap [])]) (Ok YNull) eq_refl eq_refl)
    as [(s & m & Hs & Hm & _)|(e & _ & H)].
  - injection Hs as <-. discriminate Hm.
  - exists e. exact H.
Defined.

(** ** The scan: accounting *)

Lemma stored_or_reported fs directory (files : list Path) :
  List.length (flat_map (stored fs directory) files)
  + List.length (flat_map (reported fs) files)
  = List.length files.
Proof.
  induction files as [|f files IH]; cbn [flat_map List.length]; [reflexivity|].
  rewrite !length_app. unfold stored at 1, reported at 1.
  destruct (read_text fs f); cbn [List.length]; lia.
Qed.

(** The number of entries of a mapping. *)
Definition entry_count (file_contents : dict (list string)) : nat :=
  list_sum (map (fun ec => List.length (snd ec)) file_contents).

(** X20: every ranked file is accounted for once: the entries stored
    by a successful scan and the lines it printed add up to the number
    of ranked files of the primary languages. *)
Theorem ranked_files_are_stored_or_reported fs directory w w' file_contents :
  analyze_directory fs directory w = (w', Ok file_contents) ->
  entry_count file_contents + List.length (stdout w')
  = list_sum (map (fun ext =>
                     List.length (files_by_importance
                                    ext (snd (first_pass fs directory))))
                  (primary_languages (fst (first_pass fs directory))))
    + List.length (stdout w).
Proof.
  rewrite analyze_directory_eq.
  destruct (first_pass fs directory) as [lc all]. cbn [fst snd].
  destruct lc as [|c lc]; [discriminate|]. intros [= <- <-].
  unfold say. cbn [stdout]. rewrite length_app.
  generalize (primary_languages (c :: lc)). intros exts.
  assert (H : entry_count (flat_map (contents_of fs directory all) exts)
              + List.length (flat_map (reports_of fs all) exts)
              = list_sum (map (fun ext => List.length (files_by_importance ext all))
                              exts)).
  { unfold entry_count. induction exts as [|e exts IH]; [reflexivity|].
    cbn [flat_map map]. rewrite map_app, list_sum_app, length_app.
    replace (list_sum
               (List.length (files_by_importance e all)
                :: map (fun ext => List.length (files_by_importance ext all)) exts))
      with (List.length (files_by_importance e all)
            + list_sum (map (fun ext => List.length (files_by_importance ext all))
                            exts))
      by reflexivity.
    rewrite <- IH. unfold contents_of at 1, reports_of at 1.
    pose proof (stored_or_reported fs directory (files_by_importance e all)) as Hs.
    destruct (files_by_importance e all) as [|f files].
    - cbn. lia.
    - replace (list_sum (map (fun ec : string * list string => List.length (snd ec))
                             [(e, flat_map (stored fs directory) (f :: files))]))
        with (List.length (flat_map (stored fs directory) (f :: files)))
        by (cbn [map list_sum fold_right snd]; lia).
      lia. }
  lia.
Qed.

Lemma ranked_files_are_stored_or_reported_witness :
  entry_count [ (".py", [ "# File: src/main.py" ++ nl ++ "# main.py";
                          "# File: src/utils.py" ++ nl ++ "# utils.py" ]) ]
  + List.length
      (stdout (say ["Error reading /repo/src/locked.py: [Errno 13] Permission denied: '/repo/src/locked.py'"]
                   empty_world))
  = list_sum (map (fun ext =>
                     List.length
                       (files_by_importance
                          ext (snd (first_pass repo_with_unreadable (Path_of "/repo")))))
                  (primary_languages
                     (fst (first_pass repo_with_unreadable (Path_of "/repo")))))
    + List.length (stdout empty_world).
Proof.
  apply (ranked_files_are_stored_or_reported repo_with_unreadable (Path_of "/repo")
           empty_world).
  vm_compute. reflexivity.
Defined.

(** X21: the selection is closed upwards: an extension with at least
    as many files as a selected one is selected too, so the most
    frequent extension always is. *)
Theorem selection_is_upward_closed (language_counts : dict nat)
        (ext ext' : string) (count count' : nat) :
  In (ext, count) language_counts ->
  In (ext', count') language_counts ->
  NoDup (keys language_counts) ->
  In ext (primary_languages language_counts) ->
  count <= count' ->
  In ext' (primary_languages language_counts).
Proof.
  intros Hin Hin' Hnd Hsel Hle. apply primary_languages_In in Hsel.
  destruct Hsel as (n & Hn & Hthr).
  assert (n = count).
  { clear - Hin Hn Hnd. unfold keys in Hnd.
    induction language_counts as [|[k v] l IH]; [destruct Hin|].
    cbn [map fst] in Hnd. inversion Hnd as [|x y Hk Hl]; subst.
    destruct Hin as [Hin|Hin], Hn as [Hn|Hn].
    - congruence.
    - inversion Hin; subst. exfalso. apply Hk.
      apply in_map_iff. now exists (ext, n).
    - inversion Hn; subst. exfalso. apply Hk.
      apply in_map_iff. now exists (ext, count).
    - now apply IH. }
  subst n. apply primary_languages_In. exists count'. split; [assumption | lia].
Qed.

Lemma selection_is_upward_closed_witness :
  In ".ts" (primary_languages [(".py", 10); (".ts", 5); (".go", 4)]).
Proof.
  apply (selection_is_upward_closed [(".py", 10); (".ts", 5); (".go", 4)]
           ".go" ".ts" 4 5).
  - right. right. now left.
  - right. now left.
  - apply distinct_strings_NoDup. reflexivity.
  - vm_compute. tauto.
  - lia.
Defined.

(** ** [ReadmeGenerator.save_readme] *)

(** Lines 317-326. *)
Definition save_readme (fs : FileSystem) (repo_path content : string)
           (dry_run : bool) : M unit :=
  if dry_run then
    print (nl ++ "=== Generated README Content ===" ++ nl) ;;;
    print content ;;;
    print (nl ++ "============================" ++ nl)
  else
    write_file fs (joinpath (Path_of repo_path) ["README.md"]) content.

(** What a path holds after the writes of a run: the text of the last
    write to it, if any. *)
Definition file_after (w : World) (path : Path) : option string :=
  fold_left (fun held pw => if path_eqb (fst pw) path then Some (snd pw) else held)
            (written w) None.

(** X22: [save_readme] either writes or prints.  Without [dry_run],
    when [README.md] of the repository can be opened for writing, it
    holds exactly the content afterwards, replacing what an earlier
    write left there, no other file changes and nothing is printed;
    when it cannot be opened (the directory is missing, say) the error
    of [open] is raised and nothing is written or printed.  With
    [dry_run] nothing is written and the content is printed between
    two banners. *)
Theorem save_readme_writes_or_prints (fs : FileSystem)
        (repo_path content : string) (w : World) :
  (open_write fs (joinpath (Path_of repo_path) ["README.md"]) = Ok tt ->
   let w' := fst (save_readme fs repo_path content false w) in
   snd (save_readme fs repo_path content false w) = Ok tt
   /\ file_after w' (joinpath (Path_of repo_path) ["README.md"]) = Some content
   /\ (forall p, p <> joinpath (Path_of repo_path) ["README.md"] ->
                 file_after w' p = file_after w p)
   /\ stdout w' = stdout w /\ requests w' = requests w)
  /\ (forall e,
         open_write fs (joinpath (Path_of repo_path) ["README.md"]) = Raise e ->
         save_readme fs repo_path content false w = (w, Raise e))
  /\ (let w' := fst (save_readme fs repo_path content true w) in
      snd (save_readme fs repo_path content true w) = Ok tt
      /\ written w' = written w
      /\ requests w' = requests w
      /\ stdout w'
         = List.app (stdout w)
                    [nl ++ "=== Generated README Content ===" ++ nl;
                     content;
                     nl ++ "============================" ++ nl]).
Proof.
  split; [|split].
  - intros Hopen. unfold save_readme, write_file. rewrite Hopen.
    cbn [fst snd]. unfold file_after. cbn [written stdout requests].
    rewrite !fold_left_app. cbn [fold_left fst snd].
    repeat split.
    + unfold path_eqb.
      now destruct (path_eq_dec (joinpath (Path_of repo_path) ["README.md"])
                                (joinpath (Path_of repo_path) ["README.md"])).
    + intros p Hp. rewrite fold_left_app. cbn [fold_left fst snd].
      unfold path_eqb.
      destruct (path_eq_dec (joinpath (Path_of repo_path) ["README.md"]) p);
        [congruence | reflexivity].
  - intros e Hopen. unfold save_readme, write_file. now rewrite Hopen.
  - cbn. repeat split. now rewrite <- !app_assoc.
Qed.

(** A repository path that does not exist. *)
Definition missing_repo : FileSystem :=
  mkFileSystem []
    (fun p => Raise (no_such_file p))
    (fun p => Raise (no_such_file p)).

Lemma save_readme_writes_or_prints_witness :
  file_after (fst (save_readme sample_repo "/tmp/test_repo"
                               "# Test README" false empty_world))
             (Path_of "/tmp/test_repo/README.md")
  = Some "# Test README"
  /\ save_readme missing_repo "/tmp/no_such_repo_dir" "# Test README" false
                 empty_world
     = (empty_world,
        Raise (Exn FileNotFoundError
                 "[Errno 2] No such file or directory: '/tmp/no_such_repo_dir/README.md'")).
Proof.
  destruct (save_readme_writes_or_prints sample_repo "/tmp/test_repo"
              "# Test README" empty_world) as (Hw & _ & _).
  destruct (save_readme_writes_or_prints missing_repo "/tmp/no_such_repo_dir"
              "# Test README" empty_world) as (_ & Hr & _).
  split.
  - apply Hw. reflexivity.
  - apply Hr. reflexivity.
Defined.

(** ** [main]: what a run leaves behind *)

(** X23: as [main] is written, no run generates anything: whatever
    the configuration, the repository, the backend and the flags, it
    sends no request, writes no file, prints one line that starts with
    "Error: " and returns 1. *)
Theorem main_never_generates env fs backend args w :
  let (w', code) := main env fs backend args w in
  code = Ok 1%Z
  /\ requests w' = requests w
  /\ written w' = written w
  /\ exists message, stdout w' = List.app (stdout w) ["Error: " ++ message].
Proof.
  destruct (main_always_returns_1 env fs backend args w) as [message ->].
  repeat split. now exists message.
Qed.

(** ** Ranking: the first file *)

Lemma fold_left_extends {A} (step : list A -> A -> list A) :
  (forall acc f, exists added, step acc f = (acc ++ added)%list) ->
  forall l acc, exists added, fold_left step l acc = (acc ++ added)%list.
Proof.
  intros Hstep l. induction l as [|f l IH]; intros acc; cbn [fold_left].
  - exists []. now rewrite app_nil_r.
  - destruct (Hstep acc f) as [a1 ->]. destruct (IH (acc ++ a1)%list) as [a2 ->].
    exists (a1 ++ a2)%list. now rewrite app_assoc.
Qed.

Lemma later_priorities_extend ext all acc :
  exists added,
    third_priority ext all (second_priority ext all acc) = (acc ++ added)%list.
Proof.
  unfold third_priority, second_priority.
  destruct (fold_left_extends (second_priority_step ext)) with (l := all) (acc := acc)
    as [a2 ->].
  { intros a f. unfold second_priority_step.
    destruct (in_str ext (str f) && negb (path_in f a));
      [|exists []; now rewrite app_nil_r].
    destruct (in_source_dir f); [now exists [f]|].
    exists []. now rewrite app_nil_r. }
  destruct (fold_left_extends (third_priority_step ext)) with
    (l := all) (acc := (acc ++ a2)%list) as [a3 ->].
  { intros a f. unfold third_priority_step.
    destruct (in_str ext (str f) && negb (path_in f a)); [now exists [f]|].
    exists []. now rewrite app_nil_r. }
  exists (a2 ++ a3)%list. now rewrite app_assoc.
Qed.

(** X24: the file ranked first is the entry point of the source
    directories that was matched last: the last pattern of the catalog
    entry that has such a file and, for that pattern, the last such
    file of the walk.  For [.py] a [setup.py] under [src/] therefore
    comes before a [main.py] under [src/]. *)
Theorem last_source_entry_point_ranks_first (ext : string)
        (all_files earlier : list Path) (f : Path) :
  entry_points ext true all_files = (earlier ++ [f])%list ->
  exists rest, files_by_importance ext all_files = f :: rest.
Proof.
  intros Hlast. unfold files_by_importance, ordered_files.
  destruct (later_priorities_extend ext all_files
              (first_priority ext all_files [])) as [added ->].
  rewrite first_priority_eq, Hlast, rev_unit. cbn [app firstn]. eauto.
Qed.

Lemma last_source_entry_point_ranks_first_witness :
  exists rest,
    files_by_importance ".py"
      [Path_of "/r/src/setup.py"; Path_of "/r/src/main.py"; Path_of "/r/main.py"]
    = Path_of "/r/src/setup.py" :: rest.
Proof.
  apply (last_source_entry_point_ranks_first ".py"
           [Path_of "/r/src/setup.py"; Path_of "/r/src/main.py"; Path_of "/r/main.py"]
           [Path_of "/r/src/main.py"]).
  vm_compute. reflexivity.
Defined.

(** ** The ignore filter and the scanned directory itself *)

Lemma join_app (sep : string) (a b : list string) :
  a <> [] ->
  join sep (a ++ b) = join sep a ++ match b with
                                    | [] => ""
                                    | _ => sep ++ join sep b
                                    end.
Proof.
  induction a as [|x a IH]; [congruence|]. intros _.
  destruct a as [|y a].
  - cbn [app]. destruct b as [|z b]; [cbn; now rewrite append_empty_r|].
    reflexivity.
  - change (join sep ((x :: y :: a) ++ b))
      with (x ++ sep ++ join sep ((y :: a) ++ b)).
    rewrite IH by discriminate.
    change (join sep (x :: y :: a)) with (x ++ sep ++ join sep (y :: a)).
    now rewrite !append_assoc.
Qed.

(** The text of [directory / rel] starts with the text of [directory],
    unless [directory] is the current directory, which [str] shows as
    a dot that joined paths do not keep. *)
Lemma str_joinpath (directory : Path) (rel : list string) :
  absolute directory = true \/ parts directory <> [] ->
  exists suffix, str (joinpath directory rel) = str directory ++ suffix.
Proof.
  intros H. destruct directory as [a ps]. cbn [absolute parts] in H.
  unfold joinpath. cbn [absolute parts]. destruct a.
  - unfold str. cbn [absolute parts]. destruct ps as [|p ps].
    + cbn [app is_double_slash_root].
      destruct (is_double_slash_root rel); [now exists "/"|].
      exists (join "/" rel). reflexivity.
    + destruct (is_double_slash_root (p :: ps)) eqn:Ed.
      * destruct ps as [|p' ps]; [|discriminate]. cbn in Ed.
        apply String.eqb_eq in Ed. subst p.
        destruct rel as [|r rel]; [now exists ""|].
        exists (join "/" (r :: rel)). reflexivity.
      * assert (Hnd : is_double_slash_root ((p :: ps) ++ rel) = false).
        { destruct ps as [|p' ps]; [|reflexivity].
          destruct rel as [|r rel]; [exact Ed | reflexivity]. }
        rewrite Hnd, join_app by discriminate. eexists.
        rewrite append_assoc. reflexivity.
  - destruct ps as [|p ps]; [destruct H; congruence|].
    change (str (mkPath false ((p :: ps) ++ rel)))
      with (join "/" ((p :: ps) ++ rel)).
    change (str (mkPath false (p :: ps))) with (join "/" (p :: ps)).
    rewrite join_app by discriminate. eexists. reflexivity.
Qed.

(** X25: the ignore test looks at the whole path, the scanned
    directory included.  When the path given to the scan itself
    contains one of the ignored strings (a project kept under a
    directory named [build], say), every file is filtered out and the
    scan fails with the "no recognized source" error, whatever the
    directory holds. *)
Theorem scan_below_an_ignored_name_finds_nothing (fs : FileSystem)
        (directory : Path) (fragment : string) (w : World) :
  In fragment ignore_dirs ->
  in_str fragment (str directory) = true ->
  analyze_directory fs directory w = (w, Raise no_source_error).
Proof.
  intros Hfrag Hin.
  assert (Hdot : forallb (fun ig => negb (in_str ig ".")) ignore_dirs = true)
    by (vm_compute; reflexivity).
  rewrite forallb_forall in Hdot. specialize (Hdot _ Hfrag).
  assert (Hdir : absolute directory = true \/ parts directory <> []).
  { destruct (absolute directory) eqn:Ea; [now left|]. right. intros Hp.
    unfold str in Hin. rewrite Ea, Hp in Hin. rewrite Hin in Hdot. discriminate. }
  assert (Hvalid : forall ext, valid_files fs directory ext = []).
  { intros ext. unfold valid_files, rglob.
    induction (filter (fun rel => endswith (last rel "") ext) (listing fs))
      as [|rel rels IH]; [reflexivity|].
    cbn [map filter].
    assert (Hig : is_ignored (joinpath directory rel) = true).
    { unfold is_ignored. apply existsb_exists. exists fragment.
      split; [assumption|].
      destruct (str_joinpath directory rel Hdir) as [suffix ->].
      now apply in_str_app_l. }
    rewrite Hig. exact IH. }
  pose proof (language_counts_empty_iff fs directory) as [_ Hempty].
  specialize (Hempty (fun ext _ => Hvalid ext)).
  rewrite analyze_directory_eq.
  destruct (first_pass fs directory) as [lc all]. cbn [fst] in Hempty.
  now subst lc.
Qed.

Lemma scan_below_an_ignored_name_finds_nothing_witness :
  analyze_directory sample_repo (Path_of "/home/user/build/test_repo") empty_world
  = (empty_world, Raise no_source_error).
Proof.
  apply (scan_below_an_ignored_name_finds_nothing sample_repo
           (Path_of "/home/user/build/test_repo") "build").
  - cbn. tauto.
  - vm_compute. reflexivity.
Defined.

(** ** Configuration: merging twice *)











